(** * Von Koch snowflake viewer: model of [von_koch.py] and its properties

    The Python program draws a Von Koch snowflake on a Tk canvas and lets
    the user pan, zoom and change the recursion level.  This development
    embeds the geometry ([calculer_points_koch], [dessiner_flocon]) and the
    interaction handlers of [VonKochApp] and proves the properties that the
    specification states about them.

    Modelling choices.
    - Python numbers that hold coordinates, the zoom and event data are
      modelled by the real numbers [R]: rounding of the binary64 arithmetic
      is abstracted away, the literals [0.1], [50.0], [1.1], [1.2] stand for
      their decimal values.
    - The recursion level is a Python [int]: an unbounded integer [Z].
    - A Python call either returns a value or raises: [result].  The two
      exceptions that the code under study can meet are [ValueError]
      ([math.sqrt] of a negative number) and [RecursionError] (the
      interpreter's recursion limit, here the parameter [limite]).
    - The object [self] is a record that every method receives and returns;
      a method that raises still returns the state it had reached, as the
      Tk main loop reports the exception and carries on. *)

From Stdlib Require Import Reals Lra Lia ZArith List Bool.
Import ListNotations.

Local Open Scope R_scope.

(* ================================================================== *)
(** * Python runtime *)

Inductive exception : Type :=
| ValueError
| RecursionError.

Inductive result (A : Type) : Type :=
| Ok (a : A)
| Raise (e : exception).

Arguments Ok {A} a.
Arguments Raise {A} e.

Definition bind {A B : Type} (c : result A) (k : A -> result B) : result B :=
  match c with
  | Ok a => k a
  | Raise e => Raise e
  end.

Notation "x <- c ;; k" := (bind c (fun x => k))
  (at level 61, c at next level, right associativity).

(** The functions of Python's [math] module that the program calls. *)
Module math.

Definition pi : R := PI.

(** [math.sqrt(x)] raises [ValueError] on a negative argument. *)
Definition sqrt (x : R) : result R :=
  if Rlt_dec x 0 then Raise ValueError else Ok (R_sqrt.sqrt x).

Definition cos (x : R) : R := Rtrigo_def.cos x.
Definition sin (x : R) : R := Rtrigo_def.sin x.

(** [math.atan2(y, x)]: the angle, in ]-pi, pi], of the vector [(x, y)]
    with the positive x axis; [atan2(0, 0)] is [0]. *)
Definition atan2 (y x : R) : R :=
  if Rlt_dec 0 x then atan (y / x)
  else if Rlt_dec x 0 then
    (if Rle_dec 0 y then atan (y / x) + PI else atan (y / x) - PI)
  else if Rlt_dec 0 y then PI / 2
  else if Rlt_dec y 0 then - (PI / 2)
  else 0.

End math.

(** [max(a, b)] and [min(a, b)] of Python on two numbers: the first
    argument is kept unless the second is strictly better. *)
Definition max (a b : R) : R := if Rlt_dec a b then b else a.
Definition min (a b : R) : R := if Rlt_dec b a then b else a.

(* ================================================================== *)
(** * The curve: [calculer_points_koch] *)

Definition point : Type := (R * R)%type.

(** [calculer_points_koch(self, x1, y1, x2, y2, niveau)].  [self] is not
    read.  [limite] is the number of frames left before the interpreter
    raises [RecursionError]. *)
Fixpoint calculer_points_koch (limite : nat) (x1 y1 x2 y2 : R) (niveau : Z)
  : result (list point) :=
  match limite with
  | O => Raise RecursionError
  | S limite =>
    if (niveau =? 0)%Z then Ok [(x1, y1); (x2, y2)]
    else
      let dx := x2 - x1 in
      let dy := y2 - y1 in
      distance <- math.sqrt (dx * dx + dy * dy) ;;
      let angle := math.atan2 dy dx in
      let p1_x := x1 + dx / 3 in
      let p1_y := y1 + dy / 3 in
      let p3_x := x1 + 2 * dx / 3 in
      let p3_y := y1 + 2 * dy / 3 in
      let p2_x := p1_x + distance / 3 * math.cos (angle + math.pi / 3) in
      let p2_y := p1_y + distance / 3 * math.sin (angle + math.pi / 3) in
      segment1 <- calculer_points_koch limite x1 y1 p1_x p1_y (niveau - 1) ;;
      segment2 <- calculer_points_koch limite p1_x p1_y p2_x p2_y (niveau - 1) ;;
      segment3 <- calculer_points_koch limite p2_x p2_y p3_x p3_y (niveau - 1) ;;
      segment4 <- calculer_points_koch limite p3_x p3_y x2 y2 (niveau - 1) ;;
      Ok (removelast segment1 ++ removelast segment2
            ++ removelast segment3 ++ segment4)
  end.

(* ================================================================== *)
(** * The application object *)

Definition TAILLE_FLOCON : R := 600.
Definition NIVEAU_RECURSION : Z := 4.

(** The attributes of [VonKochApp] that the methods read or write.  The
    canvas is the list of its items, each polygon being the flat list of
    coordinates given to [create_polygon]; a label is the value it shows. *)
Record VonKochApp : Type := mkApp {
  canvas_width : R;
  canvas_height : R;
  canvas : list (list R);
  zoom : R;
  pan_x : R;
  pan_y : R;
  dragging : bool;
  last_x : R;
  last_y : R;
  niveau : Z;
  info_zoom : R;
  info_niveau : Z
}.

Definition set_canvas (v : list (list R)) (a : VonKochApp) : VonKochApp :=
  mkApp (canvas_width a) (canvas_height a) v (zoom a) (pan_x a) (pan_y a)
        (dragging a) (last_x a) (last_y a) (niveau a) (info_zoom a)
        (info_niveau a).

Definition set_zoom (v : R) (a : VonKochApp) : VonKochApp :=
  mkApp (canvas_width a) (canvas_height a) (canvas a) v (pan_x a) (pan_y a)
        (dragging a) (last_x a) (last_y a) (niveau a) (info_zoom a)
        (info_niveau a).

Definition set_pan_x (v : R) (a : VonKochApp) : VonKochApp :=
  mkApp (canvas_width a) (canvas_height a) (canvas a) (zoom a) v (pan_y a)
        (dragging a) (last_x a) (last_y a) (niveau a) (info_zoom a)
        (info_niveau a).

Definition set_pan_y (v : R) (a : VonKochApp) : VonKochApp :=
  mkApp (canvas_width a) (canvas_height a) (canvas a) (zoom a) (pan_x a) v
        (dragging a) (last_x a) (last_y a) (niveau a) (info_zoom a)
        (info_niveau a).

Definition set_dragging (v : bool) (a : VonKochApp) : VonKochApp :=
  mkApp (canvas_width a) (canvas_height a) (canvas a) (zoom a) (pan_x a)
        (pan_y a) v (last_x a) (last_y a) (niveau a) (info_zoom a)
        (info_niveau a).

Definition set_last_x (v : R) (a : VonKochApp) : VonKochApp :=
  mkApp (canvas_width a) (canvas_height a) (canvas a) (zoom a) (pan_x a)
        (pan_y a) (dragging a) v (last_y a) (niveau a) (info_zoom a)
        (info_niveau a).

Definition set_last_y (v : R) (a : VonKochApp) : VonKochApp :=
  mkApp (canvas_width a) (canvas_height a) (canvas a) (zoom a) (pan_x a)
        (pan_y a) (dragging a) (last_x a) v (niveau a) (info_zoom a)
        (info_niveau a).

Definition set_niveau (v : Z) (a : VonKochApp) : VonKochApp :=
  mkApp (canvas_width a) (canvas_height a) (canvas a) (zoom a) (pan_x a)
        (pan_y a) (dragging a) (last_x a) (last_y a) v (info_zoom a)
        (info_niveau a).

Definition set_info_zoom (v : R) (a : VonKochApp) : VonKochApp :=
  mkApp (canvas_width a) (canvas_height a) (canvas a) (zoom a) (pan_x a)
        (pan_y a) (dragging a) (last_x a) (last_y a) (niveau a) v
        (info_niveau a).

Definition set_info_niveau (v : Z) (a : VonKochApp) : VonKochApp :=
  mkApp (canvas_width a) (canvas_height a) (canvas a) (zoom a) (pan_x a)
        (pan_y a) (dragging a) (last_x a) (last_y a) (niveau a)
        (info_zoom a) v.

(** What a method leaves behind: its outcome and the object. *)
Definition effect : Type := (result unit * VonKochApp)%type.

(** The data of a Tk event that the handlers read. *)
Record Event : Type := mkEvent {
  event_x : R;
  event_y : R;
  event_delta : R
}.

(** ** [dessiner_flocon] *)

(** The three vertices of the base triangle, as [dessiner_flocon] computes
    them from the current zoom and pan. *)
Definition sommets (self : VonKochApp) : point * point * point :=
  let taille := TAILLE_FLOCON * zoom self in
  let centre_x := canvas_width self / 2 + pan_x self in
  let centre_y := canvas_height self / 2 + pan_y self in
  let hauteur := taille * R_sqrt.sqrt 3 / 2 in
  let x1 := centre_x in
  let y1 := centre_y - hauteur / 2 in
  let x2 := centre_x - taille / 2 in
  let y2 := centre_y + hauteur / 2 in
  let x3 := centre_x + taille / 2 in
  let y3 := centre_y + hauteur / 2 in
  ((x1, y1), (x2, y2), (x3, y3)).

(** The list [tous_points] of [dessiner_flocon]: the outline. *)
Definition tous_points (limite : nat) (self : VonKochApp)
  : result (list point) :=
  let '((x1, y1), (x2, y2), (x3, y3)) := sommets self in
  points_cote1 <- calculer_points_koch limite x1 y1 x2 y2 (niveau self) ;;
  points_cote2 <- calculer_points_koch limite x2 y2 x3 y3 (niveau self) ;;
  points_cote3 <- calculer_points_koch limite x3 y3 x1 y1 (niveau self) ;;
  let tous_points := [] in
  let tous_points := tous_points ++ removelast points_cote1 in
  let tous_points := tous_points ++ removelast points_cote2 in
  let tous_points := tous_points ++ removelast points_cote3 in
  Ok tous_points.

Definition dessiner_flocon (limite : nat) (self : VonKochApp) : effect :=
  let self := set_canvas [] self in
  match tous_points limite self with
  | Raise e => (Raise e, self)
  | Ok tous_points =>
    let points_plats :=
      flat_map (fun point => [fst point; snd point]) tous_points in
    let self := set_canvas (canvas self ++ [points_plats]) self in
    let self := set_info_zoom (zoom self) self in
    (Ok tt, self)
  end.

(** ** Handlers *)

Definition commencer_deplacement (event : Event) (self : VonKochApp)
  : effect :=
  let self := set_dragging true self in
  let self := set_last_x (event_x event) self in
  let self := set_last_y (event_y event) self in
  (Ok tt, self).

Definition deplacer (limite : nat) (event : Event) (self : VonKochApp)
  : effect :=
  if dragging self then
    let dx := event_x event - last_x self in
    let dy := event_y event - last_y self in
    let self := set_pan_x (pan_x self + dx) self in
    let self := set_pan_y (pan_y self + dy) self in
    let self := set_last_x (event_x event) self in
    let self := set_last_y (event_y event) self in
    dessiner_flocon limite self
  else (Ok tt, self).

Definition arreter_deplacement (event : Event) (self : VonKochApp)
  : effect :=
  (Ok tt, set_dragging false self).

Definition zoomer_windows (limite : nat) (event : Event) (self : VonKochApp)
  : effect :=
  let factor := 1.0 + event_delta event / 1200.0 in
  let self := set_zoom (zoom self * factor) self in
  let self := set_zoom (max 0.1 (min 50.0 (zoom self))) self in
  dessiner_flocon limite self.

Definition zoomer_macos (limite : nat) (event : Event) (self : VonKochApp)
  : effect :=
  let factor := 1.0 + event_delta event / 120.0 in
  let self := set_zoom (zoom self * factor) self in
  let self := set_zoom (max 0.1 (min 50.0 (zoom self))) self in
  dessiner_flocon limite self.

Definition zoomer_in_linux (limite : nat) (event : Event)
  (self : VonKochApp) : effect :=
  let self := set_zoom (zoom self * 1.1) self in
  let self := set_zoom (min 50.0 (zoom self)) self in
  dessiner_flocon limite self.

Definition zoomer_out_linux (limite : nat) (event : Event)
  (self : VonKochApp) : effect :=
  let self := set_zoom (zoom self / 1.1) self in
  let self := set_zoom (max 0.1 (zoom self)) self in
  dessiner_flocon limite self.

Definition zoomer_clavier (limite : nat) (zoom_in : bool)
  (self : VonKochApp) : effect :=
  let self :=
    if zoom_in then set_zoom (zoom self * 1.2) self
    else set_zoom (zoom self / 1.2) self in
  let self := set_zoom (max 0.1 (min 50.0 (zoom self))) self in
  dessiner_flocon limite self.

Definition changer_niveau (limite : nat) (delta : Z) (self : VonKochApp)
  : effect :=
  let self := set_niveau (niveau self + delta) self in
  let self := set_niveau (Z.max 0 (Z.min 7 (niveau self))) self in
  let self := set_info_niveau (niveau self) self in
  dessiner_flocon limite self.

(** The attribute values that [__init__] sets before its first draw. *)
Definition initial : VonKochApp :=
  mkApp 1000 800 [] 1.0 0 0 false 0 0 NIVEAU_RECURSION 1.0 NIVEAU_RECURSION.

(** The zoom interactions that the bindings of [__init__] can deliver: the
    wheel on Windows and macOS, buttons 4 and 5 on Linux, the [+] and [-]
    keys and buttons. *)
Inductive zoom_event : Type :=
| Windows (event : Event)
| Macos (event : Event)
| InLinux (event : Event)
| OutLinux (event : Event)
| Clavier (zoom_in : bool).

Definition zoomer (limite : nat) (self : VonKochApp) (ev : zoom_event)
  : VonKochApp :=
  snd match ev with
      | Windows event => zoomer_windows limite event self
      | Macos event => zoomer_macos limite event self
      | InLinux event => zoomer_in_linux limite event self
      | OutLinux event => zoomer_out_linux limite event self
      | Clavier zoom_in => zoomer_clavier limite zoom_in self
      end.

(** The object after a sequence of zoom interactions, oldest first. *)
Definition zoomer_tous (limite : nat) (evs : list zoom_event)
  (self : VonKochApp) : VonKochApp :=
  fold_left (zoomer limite) evs self.

(* ================================================================== *)
(** * The specification's formulas

    These definitions follow the words of the specification, not the
    code; the theorems below compare the code with them. *)
Module Spec.

Definition clamp (v lo hi : R) : R :=
  if Rlt_dec v lo then lo else if Rlt_dec hi v then hi else v.

Definition clampZ (v lo hi : Z) : Z :=
  if (v <? lo)%Z then lo else if (hi <? v)%Z then hi else v.

(** [applyZoomFactor(factor)]: zoom *= factor; clamp to [0.1, 50.0]. *)
Definition applyZoomFactor (factor z : R) : R := clamp (z * factor) 0.1 50.0.

Definition plus (p q : point) : point := (fst p + fst q, snd p + snd q).
Definition minus (p q : point) : point := (fst p - fst q, snd p - snd q).
Definition scale (k : R) (p : point) : point := (k * fst p, k * snd p).
Definition length (d : point) : R :=
  R_sqrt.sqrt (fst d * fst d + snd d * snd d).
Definition degrees (a : R) : R := a * PI / 180.

(** The control points of the recursive case. *)
Definition p1 (start end_ : point) : point :=
  plus start (scale (1 / 3) (minus end_ start)).
Definition p3 (start end_ : point) : point :=
  plus start (scale (2 / 3) (minus end_ start)).
Definition p2 (start end_ : point) : point :=
  let d := minus end_ start in
  let L := length d in
  let theta := math.atan2 (snd d) (fst d) in
  plus (p1 start end_)
       (scale (L / 3) (Rtrigo_def.cos (theta + degrees 60),
                       Rtrigo_def.sin (theta + degrees 60))).

(** [computeTriangleVertices]: the triangle of base size [S] at zoom [z]
    around the centre [(Cx, Cy)]: apex, then the two base vertices. *)
Definition triangle (S z Cx Cy : R) : point * point * point :=
  let height := (S * z) * R_sqrt.sqrt 3 / 2 in
  ((Cx, Cy - height / 2),
   (Cx - S * z / 2, Cy + height / 2),
   (Cx + S * z / 2, Cy + height / 2)).


(** The rotation of a vector by an angle, counter-clockwise in the
    coordinate system's own sense. *)
Definition rotate (a : R) (v : point) : point :=
  (fst v * Rtrigo_def.cos a - snd v * Rtrigo_def.sin a,
   fst v * Rtrigo_def.sin a + snd v * Rtrigo_def.cos a).

Definition dist (p q : point) : R := length (minus q p).

End Spec.

(** The curve on the segment from [a] to [b]. *)
Definition courbe (limite : nat) (a b : point) (niveau : Z)
  : result (list point) :=
  calculer_points_koch limite (fst a) (snd a) (fst b) (snd b) niveau.




(* ================================================================== *)
(** * Start-up and event bindings: [__init__] *)

(** The value of [platform.system()], of which [__init__] tells three
    cases apart: ["Windows"], ["Darwin"] and anything else. *)
Inductive systeme : Type :=
| OsWindows
| OsDarwin
| OsAutre.

(** [__init__]: the attributes are set, the snowflake is drawn, then the
    level label is created with the level as its text.  An exception of
    the first draw leaves the constructor at once.  (The field
    [info_niveau] of [initial] stands for a label that does not exist
    before that point; nothing reads it.) *)
Definition init (limite : nat) : effect :=
  let self := initial in
  match dessiner_flocon limite self with
  | (Raise e, self) => (Raise e, self)
  | (Ok _, self) => (Ok tt, set_info_niveau (niveau self) self)
  end.

(** What Tk can deliver to the window: the pointer events on the canvas,
    the wheel, the [+] and [-] keys and the four buttons. *)
Inductive tk_event : Type :=
| ButtonPress1 (event : Event)
| B1Motion (event : Event)
| ButtonRelease1 (event : Event)
| MouseWheel (event : Event)
| Button4 (event : Event)
| Button5 (event : Event)
| KeyPlus
| KeyMinus
| BoutonPlus
| BoutonMoins
| BoutonNiveauMoins
| BoutonNiveauPlus.

(** The handler that the bindings of [__init__] run on an event; an event
    with no binding on this system runs nothing. *)
Definition traiter (limite : nat) (os : systeme) (ev : tk_event)
  (self : VonKochApp) : effect :=
  match ev with
  | ButtonPress1 event => commencer_deplacement event self
  | B1Motion event => deplacer limite event self
  | ButtonRelease1 event => arreter_deplacement event self
  | MouseWheel event =>
      match os with
      | OsWindows => zoomer_windows limite event self
      | OsDarwin => zoomer_macos limite event self
      | OsAutre => (Ok tt, self)
      end
  | Button4 event =>
      match os with
      | OsAutre => zoomer_in_linux limite event self
      | _ => (Ok tt, self)
      end
  | Button5 event =>
      match os with
      | OsAutre => zoomer_out_linux limite event self
      | _ => (Ok tt, self)
      end
  | KeyPlus => zoomer_clavier limite true self
  | KeyMinus => zoomer_clavier limite false self
  | BoutonPlus => zoomer_clavier limite true self
  | BoutonMoins => zoomer_clavier limite false self
  | BoutonNiveauMoins => changer_niveau limite (-1) self
  | BoutonNiveauPlus => changer_niveau limite 1 self
  end.

(** The main loop on a sequence of events, oldest first: the outcome of
    each handler and the object at the end. *)
Fixpoint derouler (limite : nat) (os : systeme) (evs : list tk_event)
  (self : VonKochApp) : list (result unit) * VonKochApp :=
  match evs with
  | [] => ([], self)
  | ev :: evs =>
      let '(r, self) := traiter limite os ev self in
      let '(rs, self) := derouler limite os evs self in
      (r :: rs, self)
  end.

(** A drag: the pointer moves through the positions [events] with the
    button held. *)
Definition glisser (limite : nat) (events : list Event)
  (self : VonKochApp) : VonKochApp :=
  fold_left (fun self event => snd (deplacer limite event self)) events self.

(* ================================================================== *)
(** * Vocabulary of the properties *)

(** The curve of level [n] as a total function of a natural number; it is
    proved below to be what [calculer_points_koch] returns. *)
Fixpoint koch (n : nat) (a b : point) : list point :=
  match n with
  | O => [a; b]
  | S n =>
      removelast (koch n a (Spec.p1 a b))
      ++ removelast (koch n (Spec.p1 a b) (Spec.p2 a b))
      ++ removelast (koch n (Spec.p2 a b) (Spec.p3 a b))
      ++ koch n (Spec.p3 a b) b
  end.

(** The flat list of coordinates given to [create_polygon]. *)
Definition aplatir (points : list point) : list R :=
  flat_map (fun point => [fst point; snd point]) points.

(** The side of the line through [p] and [q] on which [r] lies: the sign
    of the determinant of [q - p] and [r - p]. *)
Definition det (p q r : point) : R :=
  (fst q - fst p) * (snd r - snd p) - (snd q - snd p) * (fst r - fst p).


(** The view state is valid and the window shows it: the zoom and the
    level are in their ranges, the labels show them, and the canvas holds
    one polygon, the outline of the current zoom, pan and level. *)
Definition a_jour (limite : nat) (self : VonKochApp) : Prop :=
  0.1 <= zoom self <= 50.0
  /\ (0 <= niveau self <= 7)%Z
  /\ info_zoom self = zoom self
  /\ info_niveau self = niveau self
  /\ exists points : list point,
       tous_points limite self = Ok points
       /\ canvas self = [aplatir points]
       /\ Z.of_nat (length points) = (3 * 4 ^ niveau self)%Z.

(* ================================================================== *)
(** * Lemmas on the runtime *)

Lemma sqrt_somme_carres (dx dy : R) :
  math.sqrt (dx * dx + dy * dy) = Ok (R_sqrt.sqrt (dx * dx + dy * dy)).
Proof.
  unfold math.sqrt.
  destruct (Rlt_dec (dx * dx + dy * dy) 0) as [Hneg | _]; [ | reflexivity].
  exfalso. nra.
Qed.

Lemma max_min_bornes (z : R) : 0.1 <= max 0.1 (min 50.0 z) <= 50.0.
Proof.
  unfold max, min.
  destruct (Rlt_dec z 50.0); destruct (Rlt_dec 0.1 _); lra.
Qed.

Lemma max_min_clamp (z : R) : max 0.1 (min 50.0 z) = Spec.clamp z 0.1 50.0.
Proof.
  unfold max, min, Spec.clamp.
  destruct (Rlt_dec z 50.0); destruct (Rlt_dec 0.1 _);
    destruct (Rlt_dec z 0.1); destruct (Rlt_dec 50.0 z); lra.
Qed.

Lemma removelast_cons_snoc {A : Type} (a b : A) (l : list A) :
  removelast (a :: l ++ [b]) = a :: l.
Proof.
  change (a :: l ++ [b]) with ((a :: l) ++ [b]).
  apply removelast_last.
Qed.

(** ** [math.atan2] gives the direction of a vector *)

Lemma norme_pente (x y : R) :
  x <> 0 ->
  R_sqrt.sqrt (x * x + y * y) = Rabs x * R_sqrt.sqrt (1 + (y / x)²).
Proof.
  intros Hx.
  rewrite <- sqrt_Rsqr_abs, <- sqrt_mult.
  - f_equal. unfold Rsqr. field. exact Hx.
  - apply Rle_0_sqr.
  - pose proof (Rle_0_sqr (y / x)). lra.
Qed.

Lemma pente_pos (t : R) : 0 < R_sqrt.sqrt (1 + t²).
Proof. apply sqrt_lt_R0. pose proof (Rle_0_sqr t). lra. Qed.

Lemma cos_moins_PI (a : R) : cos (a - PI) = - cos a.
Proof. rewrite cos_minus, cos_PI, sin_PI. ring. Qed.

Lemma sin_moins_PI (a : R) : sin (a - PI) = - sin a.
Proof. rewrite sin_minus, cos_PI, sin_PI. ring. Qed.

Lemma atan2_cos (x y : R) :
  R_sqrt.sqrt (x * x + y * y) * cos (math.atan2 y x) = x.
Proof.
  unfold math.atan2.
  destruct (Rlt_dec 0 x) as [Hpos | Hnpos].
  - rewrite norme_pente, cos_atan, Rabs_pos_eq by lra.
    pose proof (pente_pos (y / x)). field. lra.
  - destruct (Rlt_dec x 0) as [Hneg | Hnneg].
    + assert (E : R_sqrt.sqrt (x * x + y * y) * - cos (atan (y / x)) = x).
      { rewrite norme_pente, cos_atan, Rabs_left by lra.
        pose proof (pente_pos (y / x)). field. lra. }
      destruct (Rle_dec 0 y).
      * rewrite neg_cos. exact E.
      * rewrite cos_moins_PI. exact E.
    + assert (x = 0) by lra. subst x.
      destruct (Rlt_dec 0 y); [rewrite cos_PI2; ring | ].
      destruct (Rlt_dec y 0); [rewrite cos_neg, cos_PI2; ring | ].
      assert (y = 0) by lra. subst y.
      replace (0 * 0 + 0 * 0) with 0 by ring. rewrite sqrt_0. ring.
Qed.

Lemma atan2_sin (x y : R) :
  R_sqrt.sqrt (x * x + y * y) * sin (math.atan2 y x) = y.
Proof.
  unfold math.atan2.
  destruct (Rlt_dec 0 x) as [Hpos | Hnpos].
  - rewrite norme_pente, sin_atan, Rabs_pos_eq by lra.
    pose proof (pente_pos (y / x)). field. lra.
  - destruct (Rlt_dec x 0) as [Hneg | Hnneg].
    + assert (E : R_sqrt.sqrt (x * x + y * y) * - sin (atan (y / x)) = y).
      { rewrite norme_pente, sin_atan, Rabs_left by lra.
        pose proof (pente_pos (y / x)). field. lra. }
      destruct (Rle_dec 0 y).
      * rewrite neg_sin. exact E.
      * rewrite sin_moins_PI. exact E.
    + assert (x = 0) by lra. subst x.
      replace (0 * 0 + y * y) with (y * y) by ring.
      destruct (Rlt_dec 0 y).
      { rewrite sin_PI2, sqrt_square by lra. ring. }
      destruct (Rlt_dec y 0).
      { rewrite sin_neg, sin_PI2.
        replace (y * y) with ((- y) * (- y)) by ring.
        rewrite sqrt_square by lra. ring. }
      assert (y = 0) by lra. subst y.
      rewrite sin_0. ring.
Qed.

(* ================================================================== *)
(** * Lemmas on [calculer_points_koch] *)

(** One frame of the recursion, at a level other than zero. *)
Lemma calculer_points_koch_pas (limite : nat) (x1 y1 x2 y2 : R) (n : Z) :
  n <> 0%Z ->
  calculer_points_koch (S limite) x1 y1 x2 y2 n =
  (let dx := x2 - x1 in
   let dy := y2 - y1 in
   let distance := R_sqrt.sqrt (dx * dx + dy * dy) in
   let angle := math.atan2 dy dx in
   let p1_x := x1 + dx / 3 in
   let p1_y := y1 + dy / 3 in
   let p3_x := x1 + 2 * dx / 3 in
   let p3_y := y1 + 2 * dy / 3 in
   let p2_x := p1_x + distance / 3 * math.cos (angle + math.pi / 3) in
   let p2_y := p1_y + distance / 3 * math.sin (angle + math.pi / 3) in
   segment1 <- calculer_points_koch limite x1 y1 p1_x p1_y (n - 1) ;;
   segment2 <- calculer_points_koch limite p1_x p1_y p2_x p2_y (n - 1) ;;
   segment3 <- calculer_points_koch limite p2_x p2_y p3_x p3_y (n - 1) ;;
   segment4 <- calculer_points_koch limite p3_x p3_y x2 y2 (n - 1) ;;
   Ok (removelast segment1 ++ removelast segment2
         ++ removelast segment3 ++ segment4)).
Proof.
  intros Hn.
  cbn [calculer_points_koch].
  apply Z.eqb_neq in Hn. rewrite Hn.
  rewrite sqrt_somme_carres. reflexivity.
Qed.

Lemma calculer_points_koch_zero (limite : nat) (x1 y1 x2 y2 : R) :
  calculer_points_koch (S limite) x1 y1 x2 y2 0 = Ok [(x1, y1); (x2, y2)].
Proof. reflexivity. Qed.

(** The shape of the curve of level [n]: it runs from the first end of the
    segment to the second, through [4^n - 1] inner points. *)
Lemma calculer_points_koch_forme (n : nat) :
  forall (limite : nat) (x1 y1 x2 y2 : R),
    (n < limite)%nat ->
    exists milieu : list point,
      calculer_points_koch limite x1 y1 x2 y2 (Z.of_nat n)
      = Ok ((x1, y1) :: milieu ++ [(x2, y2)])
      /\ S (length milieu) = (4 ^ n)%nat.
Proof.
  induction n as [ | n IH]; intros limite x1 y1 x2 y2 Hlim.
  - destruct limite as [ | limite]; [lia | ].
    exists []. split; reflexivity.
  - destruct limite as [ | limite]; [lia | ].
    assert (Hn : (n < limite)%nat) by lia.
    rewrite calculer_points_koch_pas by lia.
    replace (Z.of_nat (S n) - 1)%Z with (Z.of_nat n) by lia.
    cbv zeta.
    match goal with
    | |- context [calculer_points_koch limite x1 y1 ?a ?b _] =>
        destruct (IH limite x1 y1 a b Hn) as (m1 & E1 & L1)
    end.
    rewrite E1. cbn [bind].
    match goal with
    | |- context [calculer_points_koch limite ?a ?b ?c ?d _] =>
        destruct (IH limite a b c d Hn) as (m2 & E2 & L2)
    end.
    rewrite E2. cbn [bind].
    match goal with
    | |- context [calculer_points_koch limite ?a ?b ?c ?d _] =>
        destruct (IH limite a b c d Hn) as (m3 & E3 & L3)
    end.
    rewrite E3. cbn [bind].
    match goal with
    | |- context [calculer_points_koch limite ?a ?b ?c ?d _] =>
        destruct (IH limite a b c d Hn) as (m4 & E4 & L4)
    end.
    rewrite E4. cbn [bind].
    rewrite !removelast_cons_snoc.
    match goal with
    | |- context [?p1 :: m2] =>
      match goal with
      | |- context [?p2 :: m3] =>
        match goal with
        | |- context [?p3 :: m4 ++ _] =>
            exists (m1 ++ p1 :: m2 ++ p2 :: m3 ++ p3 :: m4)
        end
      end
    end.
    split.
    + f_equal. cbn [app]. f_equal.
      repeat (rewrite <- ?app_assoc; cbn [app]). reflexivity.
    + repeat (rewrite ?length_app; cbn [length]).
      rewrite Nat.pow_succ_r'. lia.
Qed.

Lemma puissance_quatre (d : Z) :
  (0 <= d)%Z -> (4 ^ d)%Z = Z.of_nat (4 ^ Z.to_nat d).
Proof.
  intros Hd.
  rewrite Nat2Z.inj_pow, Z2Nat.id by assumption.
  reflexivity.
Qed.

(** The same with the level as the integer that Python passes. *)
Lemma calculer_points_koch_forme_Z (limite : nat) (x1 y1 x2 y2 : R) (d : Z) :
  (0 <= d)%Z ->
  (Z.to_nat d < limite)%nat ->
  exists milieu : list point,
    calculer_points_koch limite x1 y1 x2 y2 d
    = Ok ((x1, y1) :: milieu ++ [(x2, y2)])
    /\ (Z.of_nat (length milieu) + 1 = 4 ^ d)%Z.
Proof.
  intros Hd Hlim.
  destruct (calculer_points_koch_forme (Z.to_nat d) limite x1 y1 x2 y2 Hlim)
    as (milieu & E & L).
  rewrite Z2Nat.id in E by assumption.
  exists milieu. split; [exact E | ].
  rewrite puissance_quatre, <- L by assumption. lia.
Qed.

(** On a segment of length zero every control point is the point itself. *)
Lemma calculer_points_koch_degenere (n : nat) :
  forall (limite : nat) (x y : R),
    (n < limite)%nat ->
    calculer_points_koch limite x y x y (Z.of_nat n)
    = Ok (repeat (x, y) (4 ^ n + 1)).
Proof.
  induction n as [ | n IH]; intros limite x y Hlim.
  - destruct limite as [ | limite]; [lia | ]. reflexivity.
  - destruct limite as [ | limite]; [lia | ].
    assert (Hn : (n < limite)%nat) by lia.
    rewrite calculer_points_koch_pas by lia.
    replace (Z.of_nat (S n) - 1)%Z with (Z.of_nat n) by lia.
    cbv zeta.
    replace (x - x) with 0 by lra. replace (y - y) with 0 by lra.
    replace (0 * 0 + 0 * 0) with 0 by lra. rewrite sqrt_0.
    replace (2 * 0 / 3) with 0 by lra. replace (0 / 3) with 0 by lra.
    rewrite !Rmult_0_l, !Rplus_0_r.
    rewrite (IH limite x y Hn). cbn [bind].
    rewrite repeat_app. cbn [repeat].
    rewrite removelast_last.
    change [(x, y)] with (repeat (x, y) 1).
    rewrite <- !repeat_app.
    do 2 f_equal. rewrite Nat.pow_succ_r'. lia.
Qed.

(** Below zero the level never meets the base case: the recursion uses up
    whatever number of frames it is given. *)
Lemma calculer_points_koch_negatif (limite : nat) :
  forall (x1 y1 x2 y2 : R) (d : Z),
    (d < 0)%Z ->
    calculer_points_koch limite x1 y1 x2 y2 d = Raise RecursionError.
Proof.
  induction limite as [ | limite IH]; intros x1 y1 x2 y2 d Hd.
  - reflexivity.
  - rewrite calculer_points_koch_pas by lia.
    cbv zeta. rewrite IH by lia. reflexivity.
Qed.

(* ================================================================== *)
(** * The curve generator *)

(** C1. For every level [d >= 0] and every segment, a call of
    [calculer_points_koch] that has more than [d] frames left returns a
    list of exactly [4^d + 1] points; its first point is the start of the
    segment and its last point is the end. *)
Theorem calculer_points_koch_taille_extremites
  (limite : nat) (x1 y1 x2 y2 : R) (d : Z) :
  (0 <= d)%Z ->
  (Z.to_nat d < limite)%nat ->
  exists points : list point,
    calculer_points_koch limite x1 y1 x2 y2 d = Ok points
    /\ Z.of_nat (length points) = (4 ^ d + 1)%Z
    /\ nth_error points 0 = Some (x1, y1)
    /\ nth_error points (length points - 1) = Some (x2, y2).
Proof.
  intros Hd Hlim.
  destruct (calculer_points_koch_forme_Z limite x1 y1 x2 y2 d Hd Hlim)
    as (milieu & E & L).
  exists ((x1, y1) :: milieu ++ [(x2, y2)]).
  split; [exact E | ]. split; [ | split].
  - cbn [length]. rewrite length_app. cbn [length]. lia.
  - reflexivity.
  - cbn [length]. rewrite length_app. cbn [length].
    replace (S (length milieu + 1) - 1)%nat with (S (length milieu)) by lia.
    cbn [nth_error].
    rewrite nth_error_app2 by lia.
    rewrite Nat.sub_diag. reflexivity.
Qed.

Lemma calculer_points_koch_taille_extremites_witness :
  exists points : list point,
    calculer_points_koch 3 0 0 9 0 2 = Ok points
    /\ Z.of_nat (length points) = (4 ^ 2 + 1)%Z
    /\ nth_error points 0 = Some (0, 0)
    /\ nth_error points (length points - 1) = Some (9, 0).
Proof.
  apply (calculer_points_koch_taille_extremites 3 0 0 9 0 2); lia.
Defined.

(** C3, as the code has it.  On the segment from a point to itself, for
    every level [d >= 0], a call that has more than [d] frames left
    returns normally (no exception, no exhausted recursion) the list of
    [4^d + 1] copies of the point: there is no test of the length of the
    segment, the subdivision runs to level zero as on any segment. *)
Theorem calculer_points_koch_segment_nul
  (limite : nat) (x y : R) (d : Z) :
  (0 <= d)%Z ->
  (Z.to_nat d < limite)%nat ->
  calculer_points_koch limite x y x y d
  = Ok (repeat (x, y) (Z.to_nat (4 ^ d + 1))).
Proof.
  intros Hd Hlim.
  rewrite <- (Z2Nat.id d) at 1 by assumption.
  rewrite (calculer_points_koch_degenere (Z.to_nat d) limite x y Hlim).
  do 2 f_equal.
  rewrite puissance_quatre by assumption. lia.
Qed.

Lemma calculer_points_koch_segment_nul_witness :
  calculer_points_koch 2 5 7 5 7 1 = Ok (repeat (5, 7) (Z.to_nat (4 ^ 1 + 1))).
Proof.
  apply (calculer_points_koch_segment_nul 2 5 7 1); lia.
Defined.

(** C3 as stated fails: at level 1 the segment from the origin to itself
    yields five points, not the two points of the claim. *)
Lemma calculer_points_koch_segment_nul_contre_exemple :
  calculer_points_koch 2 0 0 0 0 1
  = Ok [(0, 0); (0, 0); (0, 0); (0, 0); (0, 0)]
  /\ calculer_points_koch 2 0 0 0 0 1 <> Ok [(0, 0); (0, 0)].
Proof.
  assert (E : calculer_points_koch 2 0 0 0 0 1
              = Ok [(0, 0); (0, 0); (0, 0); (0, 0); (0, 0)]).
  { apply (calculer_points_koch_degenere 1 2 0 0). lia. }
  split; [exact E | ].
  rewrite E. intros H.
  apply (f_equal (fun r => match r with
                           | Ok l => length l
                           | Raise _ => 0%nat
                           end)) in H.
  cbn in H. discriminate H.
Qed.

(** C4, as the code has it.  Below zero the level is not checked: for
    every negative level and every segment the recursion never reaches its
    base case, whatever the number of frames allowed, and the call ends in
    [RecursionError], never in an invalid-argument error. *)
Theorem calculer_points_koch_niveau_negatif
  (limite : nat) (x1 y1 x2 y2 : R) (d : Z) :
  (d < 0)%Z ->
  calculer_points_koch limite x1 y1 x2 y2 d = Raise RecursionError
  /\ calculer_points_koch limite x1 y1 x2 y2 d <> Raise ValueError.
Proof.
  intros Hd.
  rewrite (calculer_points_koch_negatif limite x1 y1 x2 y2 d Hd).
  split; [reflexivity | discriminate].
Qed.

Lemma calculer_points_koch_niveau_negatif_witness :
  calculer_points_koch 1000 0 0 1 0 (-1) = Raise RecursionError
  /\ calculer_points_koch 1000 0 0 1 0 (-1) <> Raise ValueError.
Proof.
  apply (calculer_points_koch_niveau_negatif 1000 0 0 1 0 (-1)); lia.
Defined.

(** C4 as stated fails: at level -1 on the unit segment no number of
    frames makes the call end in an invalid-argument error; with a
    thousand frames it ends in [RecursionError]. *)
Lemma calculer_points_koch_niveau_negatif_contre_exemple :
  calculer_points_koch 1000 0 0 1 0 (-1) = Raise RecursionError
  /\ ~ (exists limite : nat,
          calculer_points_koch limite 0 0 1 0 (-1) = Raise ValueError).
Proof.
  split.
  - apply calculer_points_koch_negatif. lia.
  - intros (limite & H).
    rewrite calculer_points_koch_negatif in H by lia.
    discriminate H.
Qed.

(* ================================================================== *)
(** * The spike of the recursive step *)

Lemma racine_trois_carre : R_sqrt.sqrt 3 * R_sqrt.sqrt 3 = 3.
Proof. apply sqrt_sqrt. lra. Qed.



(** The offset from [p1] to the apex, as the code computes it, is the third
    of the segment turned by a sixth of a turn. *)
Lemma pointe_x (dx dy : R) :
  R_sqrt.sqrt (dx * dx + dy * dy) / 3
    * math.cos (math.atan2 dy dx + math.pi / 3)
  = dx / 3 * cos (PI / 3) - dy / 3 * sin (PI / 3).
Proof.
  unfold math.cos, math.pi. rewrite cos_plus.
  pose proof (atan2_cos dx dy) as Hc. pose proof (atan2_sin dx dy) as Hs.
  set (L := R_sqrt.sqrt (dx * dx + dy * dy)) in *.
  set (theta := math.atan2 dy dx) in *.
  clearbody L theta. subst dx dy. field.
Qed.

Lemma pointe_y (dx dy : R) :
  R_sqrt.sqrt (dx * dx + dy * dy) / 3
    * math.sin (math.atan2 dy dx + math.pi / 3)
  = dx / 3 * sin (PI / 3) + dy / 3 * cos (PI / 3).
Proof.
  unfold math.sin, math.pi. rewrite sin_plus.
  pose proof (atan2_cos dx dy) as Hc. pose proof (atan2_sin dx dy) as Hs.
  set (L := R_sqrt.sqrt (dx * dx + dy * dy)) in *.
  set (theta := math.atan2 dy dx) in *.
  clearbody L theta. subst dx dy. field.
Qed.

Lemma soixante_degres : Spec.degrees 60 = PI / 3.
Proof. unfold Spec.degrees. field. Qed.

(** The control points of the specification, in the code's arithmetic. *)
Lemma p1_code (x1 y1 x2 y2 : R) :
  Spec.p1 (x1, y1) (x2, y2) = (x1 + (x2 - x1) / 3, y1 + (y2 - y1) / 3).
Proof.
  unfold Spec.p1, Spec.plus, Spec.scale, Spec.minus. cbn [fst snd].
  f_equal; field.
Qed.

Lemma p3_code (x1 y1 x2 y2 : R) :
  Spec.p3 (x1, y1) (x2, y2)
  = (x1 + 2 * (x2 - x1) / 3, y1 + 2 * (y2 - y1) / 3).
Proof.
  unfold Spec.p3, Spec.plus, Spec.scale, Spec.minus. cbn [fst snd].
  f_equal; field.
Qed.

Lemma p2_code (x1 y1 x2 y2 : R) :
  Spec.p2 (x1, y1) (x2, y2)
  = (let dx := x2 - x1 in
     let dy := y2 - y1 in
     let distance := R_sqrt.sqrt (dx * dx + dy * dy) in
     let angle := math.atan2 dy dx in
     (x1 + dx / 3 + distance / 3 * math.cos (angle + math.pi / 3),
      y1 + dy / 3 + distance / 3 * math.sin (angle + math.pi / 3))).
Proof.
  unfold Spec.p2. rewrite p1_code, soixante_degres.
  unfold Spec.plus, Spec.scale, Spec.minus, Spec.length. cbn [fst snd].
  reflexivity.
Qed.




Lemma longueur_nulle (d : point) : Spec.length d = 0 -> d = (0, 0).
Proof.
  destruct d as [a b]. unfold Spec.length. cbn [fst snd]. intros H.
  assert (Hs : 0 <= a * a + b * b) by nra.
  pose proof (sqrt_sqrt _ Hs) as E. rewrite H in E.
  assert (a = 0) by nra. assert (b = 0) by nra. subst. reflexivity.
Qed.


(* ================================================================== *)
(** * The outline: [dessiner_flocon] *)

Lemma sommets_triangle (self : VonKochApp) :
  sommets self
  = Spec.triangle TAILLE_FLOCON (zoom self)
      (canvas_width self / 2 + pan_x self)
      (canvas_height self / 2 + pan_y self).
Proof. reflexivity. Qed.

Lemma racine_trois_bornes : 1.73205 < R_sqrt.sqrt 3 < 1.73206.
Proof.
  pose proof racine_trois_carre as H.
  assert (Hpos : 0 <= R_sqrt.sqrt 3) by apply sqrt_pos.
  split; nra.
Qed.

(** The outline is made of the three sides, each without its last point. *)
Lemma tous_points_forme (n : nat) (limite : nat) (self : VonKochApp) :
  niveau self = Z.of_nat n ->
  (n < limite)%nat ->
  exists m1 m2 m3 : list point,
    let '(A, B, C) := sommets self in
    courbe limite A B (niveau self) = Ok (A :: m1 ++ [B])
    /\ courbe limite B C (niveau self) = Ok (B :: m2 ++ [C])
    /\ courbe limite C A (niveau self) = Ok (C :: m3 ++ [A])
    /\ tous_points limite self = Ok (A :: m1 ++ B :: m2 ++ C :: m3)
    /\ S (length m1) = (4 ^ n)%nat
    /\ S (length m2) = (4 ^ n)%nat
    /\ S (length m3) = (4 ^ n)%nat.
Proof.
  intros Hniv Hlim. unfold tous_points, courbe.
  destruct (sommets self) as [[[x1 y1] [x2 y2]] [x3 y3]].
  rewrite Hniv. cbn [fst snd].
  destruct (calculer_points_koch_forme n limite x1 y1 x2 y2 Hlim)
    as (m1 & E1 & L1).
  destruct (calculer_points_koch_forme n limite x2 y2 x3 y3 Hlim)
    as (m2 & E2 & L2).
  destruct (calculer_points_koch_forme n limite x3 y3 x1 y1 Hlim)
    as (m3 & E3 & L3).
  exists m1, m2, m3.
  rewrite E1, E2, E3. cbn [bind].
  rewrite !removelast_cons_snoc.
  repeat split; try assumption.
  cbn [app]. repeat (rewrite <- ?app_assoc; cbn [app]). reflexivity.
Qed.

(** Drawing touches the canvas and the zoom label, nothing else. *)
Lemma dessiner_flocon_cadre (limite : nat) (self : VonKochApp) :
  let apres := snd (dessiner_flocon limite self) in
  zoom apres = zoom self
  /\ pan_x apres = pan_x self
  /\ pan_y apres = pan_y self
  /\ niveau apres = niveau self
  /\ dragging apres = dragging self
  /\ last_x apres = last_x self
  /\ last_y apres = last_y self
  /\ canvas_width apres = canvas_width self
  /\ canvas_height apres = canvas_height self
  /\ info_niveau apres = info_niveau self.
Proof.
  unfold dessiner_flocon.
  destruct (tous_points limite (set_canvas [] self));
    cbn; repeat split; reflexivity.
Qed.

(** C2, as the code has it.  For every level [d] in [0, 7], the outline
    that [dessiner_flocon] builds is the concatenation of the curves of the
    three sides, each of them without its last point, the third one
    included: it has [3 * 4^d] points, starts at the first vertex and does
    not repeat it at the end.  The list of the claim, in which the third
    curve keeps its last point, is this outline followed by the first
    vertex. *)
Theorem tous_points_trois_cotes
  (limite : nat) (self : VonKochApp) (d : Z) :
  niveau self = d ->
  (0 <= d <= 7)%Z ->
  (Z.to_nat d < limite)%nat ->
  let '(A, B, C) := sommets self in
  exists cote1 cote2 cote3 contour : list point,
    courbe limite A B d = Ok cote1
    /\ courbe limite B C d = Ok cote2
    /\ courbe limite C A d = Ok cote3
    /\ tous_points limite self = Ok contour
    /\ contour = removelast cote1 ++ removelast cote2 ++ removelast cote3
    /\ Z.of_nat (length contour) = (3 * 4 ^ d)%Z
    /\ nth_error contour 0 = Some A
    /\ contour ++ [A] = removelast cote1 ++ removelast cote2 ++ cote3.
Proof.
  intros Hniv Hd Hlim.
  assert (Hn : niveau self = Z.of_nat (Z.to_nat d)) by lia.
  pose proof (tous_points_forme (Z.to_nat d) limite self Hn Hlim) as H.
  destruct (sommets self) as [[A B] C].
  destruct H as (m1 & m2 & m3 & E1 & E2 & E3 & E & L1 & L2 & L3).
  rewrite Hniv in E1, E2, E3.
  exists (A :: m1 ++ [B]), (B :: m2 ++ [C]), (C :: m3 ++ [A]),
    (A :: m1 ++ B :: m2 ++ C :: m3).
  rewrite !removelast_cons_snoc.
  do 4 (split; [assumption | ]).
  split; [reflexivity | ]. split; [ | split; [reflexivity | ]].
  - cbn [length]. repeat (rewrite ?length_app; cbn [length]).
    rewrite puissance_quatre by lia. lia.
  - cbn [app]. repeat (rewrite <- ?app_assoc; cbn [app]). reflexivity.
Qed.

Lemma tous_points_trois_cotes_witness :
  let '(A, B, C) := sommets initial in
  exists cote1 cote2 cote3 contour : list point,
    courbe 5 A B 4 = Ok cote1
    /\ courbe 5 B C 4 = Ok cote2
    /\ courbe 5 C A 4 = Ok cote3
    /\ tous_points 5 initial = Ok contour
    /\ contour = removelast cote1 ++ removelast cote2 ++ removelast cote3
    /\ Z.of_nat (length contour) = (3 * 4 ^ 4)%Z
    /\ nth_error contour 0 = Some A
    /\ contour ++ [A] = removelast cote1 ++ removelast cote2 ++ cote3.
Proof.
  apply (tous_points_trois_cotes 5 initial 4).
  - reflexivity.
  - lia.
  - cbn. lia.
Defined.

(** C2 as stated fails: at the initial level 4 the outline has 768 points,
    not the [3 * 4^4 + 1 = 769] of the claim. *)
Lemma tous_points_trois_cotes_contre_exemple :
  ~ (exists contour : list point,
       tous_points 5 initial = Ok contour
       /\ Z.of_nat (length contour) = (3 * 4 ^ 4 + 1)%Z).
Proof.
  intros (contour & E & L).
  assert (Hn : niveau initial = Z.of_nat 4) by reflexivity.
  assert (Hlim : (4 < 5)%nat) by lia.
  pose proof (tous_points_forme 4 5 initial Hn Hlim) as H.
  destruct (sommets initial) as [[A B] C].
  destruct H as (m1 & m2 & m3 & _ & _ & _ & E' & L1 & L2 & L3).
  rewrite E' in E. injection E as E. subst contour.
  cbn [length] in L. repeat (rewrite ?length_app in L; cbn [length] in L).
  change (4 ^ 4)%nat with 256%nat in L1, L2, L3.
  change (3 * 4 ^ 4 + 1)%Z with 769%Z in L.
  lia.
Qed.

(** C8. For every zoom, pan and canvas size, the three vertices that
    [dessiner_flocon] computes are those of the specification's triangle
    of base size [TAILLE_FLOCON = 600] around the canvas centre moved by
    the pan: with [h = (S z) sqrt 3 / 2], the apex [(Cx, Cy - h/2)] and the
    base vertices [(Cx - S z / 2, Cy + h/2)] and [(Cx + S z / 2, Cy + h/2)].
    At zoom 1, pan (0, 0) and centre (500, 400), the apex is
    (500, 400 - 259.80...), the left vertex (200, 659.80...) and the right
    vertex (800, 659.80...), which the claim rounds to 259.81 and 659.81. *)
Theorem sommets_triangle_equilateral :
  (forall self : VonKochApp,
     let S := TAILLE_FLOCON in
     let z := zoom self in
     let Cx := canvas_width self / 2 + pan_x self in
     let Cy := canvas_height self / 2 + pan_y self in
     let h := (S * z) * R_sqrt.sqrt 3 / 2 in
     sommets self
     = ((Cx, Cy - h / 2), (Cx - S * z / 2, Cy + h / 2),
        (Cx + S * z / 2, Cy + h / 2))
     /\ sommets self = Spec.triangle S z Cx Cy)
  /\ TAILLE_FLOCON = 600
  /\ (forall self : VonKochApp,
        zoom self = 1.0 ->
        pan_x self = 0 -> pan_y self = 0 ->
        canvas_width self / 2 = 500 -> canvas_height self / 2 = 400 ->
        exists demi_hauteur : R,
          259.80 < demi_hauteur < 259.81
          /\ sommets self
             = ((500, 400 - demi_hauteur), (200, 400 + demi_hauteur),
                (800, 400 + demi_hauteur))).
Proof.
  split; [ | split].
  - intros self. split; reflexivity.
  - reflexivity.
  - intros self Hz Hx Hy Hw Hh.
    exists (150 * R_sqrt.sqrt 3). split.
    + pose proof racine_trois_bornes. lra.
    + unfold sommets, TAILLE_FLOCON. cbv zeta.
      rewrite Hz, Hx, Hy, Hw, Hh.
      f_equal; [f_equal | ]; f_equal; lra.
Qed.

Lemma sommets_triangle_equilateral_witness :
  exists demi_hauteur : R,
    259.80 < demi_hauteur < 259.81
    /\ sommets initial
       = ((500, 400 - demi_hauteur), (200, 400 + demi_hauteur),
          (800, 400 + demi_hauteur)).
Proof.
  apply (proj2 (proj2 sommets_triangle_equilateral) initial);
    cbn; lra.
Defined.

(** C9. At level 0, whatever the zoom in [0.1, 50.0], the outline that
    [dessiner_flocon] builds is exactly the three vertices of the triangle
    in the order apex, left base vertex, right base vertex: the apex lies
    strictly between the two others in x and strictly above them (smaller
    y), so no point is repeated; the polygon put on the canvas has these
    six coordinates. *)
Theorem tous_points_niveau_zero (limite : nat) (self : VonKochApp) :
  niveau self = 0%Z ->
  0.1 <= zoom self <= 50.0 ->
  let '(A, B, C) := sommets self in
  tous_points (S limite) self = Ok [A; B; C]
  /\ fst B < fst A < fst C
  /\ snd A < snd B /\ snd B = snd C
  /\ NoDup [A; B; C]
  /\ canvas (snd (dessiner_flocon (S limite) self))
     = [[fst A; snd A; fst B; snd B; fst C; snd C]].
Proof.
  intros Hniv Hz.
  assert (T : tous_points (S limite) self
              = Ok [fst (fst (sommets self)); snd (fst (sommets self));
                    snd (sommets self)]).
  { unfold tous_points.
    destruct (sommets self) as [[[x1 y1] [x2 y2]] [x3 y3]].
    rewrite Hniv, !calculer_points_koch_zero. reflexivity. }
  assert (D : canvas (snd (dessiner_flocon (S limite) self))
              = [flat_map (fun p : point => [fst p; snd p])
                   [fst (fst (sommets self)); snd (fst (sommets self));
                    snd (sommets self)]]).
  { unfold dessiner_flocon.
    change (tous_points (S limite) (set_canvas [] self))
      with (tous_points (S limite) self).
    rewrite T. reflexivity. }
  pose proof racine_trois_bornes as Hr.
  assert (Ht : 0 < TAILLE_FLOCON * zoom self)
    by (unfold TAILLE_FLOCON; lra).
  assert (Hh : 0 < TAILLE_FLOCON * zoom self * R_sqrt.sqrt 3) by nra.
  unfold sommets in *. cbv zeta in *. cbn [fst snd] in *.
  split; [exact T | ].
  assert (Hx : canvas_width self / 2 + pan_x self
                 - TAILLE_FLOCON * zoom self / 2
               < canvas_width self / 2 + pan_x self
               < canvas_width self / 2 + pan_x self
                 + TAILLE_FLOCON * zoom self / 2) by lra.
  assert (Hy : canvas_height self / 2 + pan_y self
                 - TAILLE_FLOCON * zoom self * R_sqrt.sqrt 3 / 2 / 2
               < canvas_height self / 2 + pan_y self
                 + TAILLE_FLOCON * zoom self * R_sqrt.sqrt 3 / 2 / 2) by lra.
  split; [exact Hx | ]. split; [exact Hy | ]. split; [reflexivity | ].
  split; [ | exact D].
  apply NoDup_cons;
    [ | apply NoDup_cons; [ | apply NoDup_cons; [ | apply NoDup_nil]]];
    cbn [In]; intros H;
    repeat (destruct H as [H | H]; [injection H; intros; lra | ]);
    exact H.
Qed.

Lemma tous_points_niveau_zero_witness :
  let '(A, B, C) := sommets (set_niveau 0 initial) in
  tous_points 1 (set_niveau 0 initial) = Ok [A; B; C]
  /\ fst B < fst A < fst C
  /\ snd A < snd B /\ snd B = snd C
  /\ NoDup [A; B; C]
  /\ canvas (snd (dessiner_flocon 1 (set_niveau 0 initial)))
     = [[fst A; snd A; fst B; snd B; fst C; snd C]].
Proof.
  apply (tous_points_niveau_zero 0 (set_niveau 0 initial)).
  - reflexivity.
  - cbn. lra.
Defined.

(* ================================================================== *)
(** * The view state: zoom, pan and level *)

Lemma zoom_dessiner_flocon (limite : nat) (self : VonKochApp) :
  zoom (snd (dessiner_flocon limite self)) = zoom self.
Proof. apply (dessiner_flocon_cadre limite self). Qed.

Lemma zoomer_windows_zoom (limite : nat) (event : Event) (self : VonKochApp) :
  zoom (snd (zoomer_windows limite event self))
  = Spec.applyZoomFactor (1.0 + event_delta event / 1200.0) (zoom self).
Proof.
  unfold zoomer_windows. cbv zeta. rewrite zoom_dessiner_flocon.
  cbn [zoom set_zoom]. apply max_min_clamp.
Qed.

Lemma zoomer_macos_zoom (limite : nat) (event : Event) (self : VonKochApp) :
  zoom (snd (zoomer_macos limite event self))
  = Spec.applyZoomFactor (1.0 + event_delta event / 120.0) (zoom self).
Proof.
  unfold zoomer_macos. cbv zeta. rewrite zoom_dessiner_flocon.
  cbn [zoom set_zoom]. apply max_min_clamp.
Qed.

Lemma zoomer_clavier_zoom (limite : nat) (zoom_in : bool)
  (self : VonKochApp) :
  zoom (snd (zoomer_clavier limite zoom_in self))
  = Spec.applyZoomFactor (if zoom_in then 1.2 else / 1.2) (zoom self).
Proof.
  unfold zoomer_clavier. cbv zeta. rewrite zoom_dessiner_flocon.
  destruct zoom_in; cbn [zoom set_zoom]; apply max_min_clamp.
Qed.

(** The Linux handlers clamp on one side only; inside the range the other
    side cannot be crossed, so they too apply a clamped factor. *)
Lemma zoomer_in_linux_zoom (limite : nat) (event : Event)
  (self : VonKochApp) :
  0.1 <= zoom self ->
  zoom (snd (zoomer_in_linux limite event self))
  = Spec.applyZoomFactor 1.1 (zoom self).
Proof.
  intros Hz.
  unfold zoomer_in_linux. cbv zeta. rewrite zoom_dessiner_flocon.
  cbn [zoom set_zoom]. unfold min, Spec.applyZoomFactor, Spec.clamp.
  destruct (Rlt_dec (zoom self * 1.1) 50.0);
    destruct (Rlt_dec (zoom self * 1.1) 0.1);
    destruct (Rlt_dec 50.0 (zoom self * 1.1)); lra.
Qed.

Lemma zoomer_out_linux_zoom (limite : nat) (event : Event)
  (self : VonKochApp) :
  zoom self <= 50.0 ->
  zoom (snd (zoomer_out_linux limite event self))
  = Spec.applyZoomFactor (/ 1.1) (zoom self).
Proof.
  intros Hz.
  unfold zoomer_out_linux. cbv zeta. rewrite zoom_dessiner_flocon.
  cbn [zoom set_zoom]. unfold max, Spec.applyZoomFactor, Spec.clamp.
  change (zoom self / 1.1) with (zoom self * / 1.1).
  destruct (Rlt_dec 0.1 (zoom self * / 1.1));
    destruct (Rlt_dec (zoom self * / 1.1) 0.1);
    destruct (Rlt_dec 50.0 (zoom self * / 1.1)); lra.
Qed.

Lemma applyZoomFactor_bornes (factor z : R) :
  0.1 <= Spec.applyZoomFactor factor z <= 50.0.
Proof.
  unfold Spec.applyZoomFactor, Spec.clamp.
  destruct (Rlt_dec (z * factor) 0.1);
    destruct (Rlt_dec 50.0 (z * factor)); lra.
Qed.

Lemma zoomer_bornes (limite : nat) (self : VonKochApp) (ev : zoom_event) :
  0.1 <= zoom self <= 50.0 ->
  0.1 <= zoom (zoomer limite self ev) <= 50.0.
Proof.
  intros Hz. unfold zoomer. destruct ev as [e | e | e | e | b].
  - rewrite zoomer_windows_zoom. apply applyZoomFactor_bornes.
  - rewrite zoomer_macos_zoom. apply applyZoomFactor_bornes.
  - rewrite zoomer_in_linux_zoom by lra. apply applyZoomFactor_bornes.
  - rewrite zoomer_out_linux_zoom by lra. apply applyZoomFactor_bornes.
  - rewrite zoomer_clavier_zoom. apply applyZoomFactor_bornes.
Qed.

Lemma zoomer_tous_bornes (limite : nat) (evs : list zoom_event) :
  forall self : VonKochApp,
    0.1 <= zoom self <= 50.0 ->
    0.1 <= zoom (zoomer_tous limite evs self) <= 50.0.
Proof.
  unfold zoomer_tous.
  induction evs as [ | ev evs IH]; intros self Hz.
  - exact Hz.
  - cbn [fold_left]. apply IH. apply zoomer_bornes. exact Hz.
Qed.

(** C6. From a zoom in [0.1, 50.0], any sequence of zoom interactions
    (wheel on Windows or macOS with any delta, hence any factor, buttons 4
    and 5 on Linux, keyboard in and out) leaves the zoom in [0.1, 50.0].
    The wheel and keyboard handlers multiply the zoom by their factor and
    clamp it, as [applyZoomFactor] does; from zoom 1.0 the factor 1000
    gives 50.0 and the factor 0.0001 gives 0.1. *)
Theorem zoom_toujours_borne
  (limite : nat) (evs : list zoom_event) (self : VonKochApp) :
  0.1 <= zoom self <= 50.0 ->
  0.1 <= zoom (zoomer_tous limite evs self) <= 50.0
  /\ (forall event : Event,
        zoom (snd (zoomer_windows limite event self))
        = Spec.applyZoomFactor (1.0 + event_delta event / 1200.0)
                               (zoom self))
  /\ (forall event : Event,
        zoom (snd (zoomer_macos limite event self))
        = Spec.applyZoomFactor (1.0 + event_delta event / 120.0)
                               (zoom self))
  /\ (forall zoom_in : bool,
        zoom (snd (zoomer_clavier limite zoom_in self))
        = Spec.applyZoomFactor (if zoom_in then 1.2 else / 1.2)
                               (zoom self))
  /\ (forall event : Event,
        zoom (snd (zoomer_in_linux limite event self))
        = Spec.applyZoomFactor 1.1 (zoom self))
  /\ (forall event : Event,
        zoom (snd (zoomer_out_linux limite event self))
        = Spec.applyZoomFactor (/ 1.1) (zoom self))
  /\ Spec.applyZoomFactor 1000 1.0 = 50.0
  /\ Spec.applyZoomFactor 0.0001 1.0 = 0.1
  /\ zoom (snd (zoomer_windows limite (mkEvent 0 0 1198800)
                  (set_zoom 1.0 self))) = 50.0
  /\ zoom (snd (zoomer_windows limite (mkEvent 0 0 (-1199.88))
                  (set_zoom 1.0 self))) = 0.1.
Proof.
  intros Hz.
  split; [apply zoomer_tous_bornes; exact Hz | ].
  split; [intros; apply zoomer_windows_zoom | ].
  split; [intros; apply zoomer_macos_zoom | ].
  split; [intros; apply zoomer_clavier_zoom | ].
  split; [intros; apply zoomer_in_linux_zoom; lra | ].
  split; [intros; apply zoomer_out_linux_zoom; lra | ].
  assert (Hhaut : Spec.applyZoomFactor 1000 1.0 = 50.0).
  { unfold Spec.applyZoomFactor, Spec.clamp.
    destruct (Rlt_dec (1.0 * 1000) 0.1);
      destruct (Rlt_dec 50.0 (1.0 * 1000)); lra. }
  assert (Hbas : Spec.applyZoomFactor 0.0001 1.0 = 0.1).
  { unfold Spec.applyZoomFactor, Spec.clamp.
    destruct (Rlt_dec (1.0 * 0.0001) 0.1);
      destruct (Rlt_dec 50.0 (1.0 * 0.0001)); lra. }
  split; [exact Hhaut | ]. split; [exact Hbas | ].
  split.
  - rewrite zoomer_windows_zoom. cbn [event_delta zoom set_zoom].
    rewrite <- Hhaut. f_equal. lra.
  - rewrite zoomer_windows_zoom. cbn [event_delta zoom set_zoom].
    rewrite <- Hbas. f_equal. lra.
Qed.

Lemma zoom_toujours_borne_witness :
  0.1 <= zoom (zoomer_tous 8
                 [Windows (mkEvent 0 0 1198800); Clavier false;
                  OutLinux (mkEvent 0 0 0); InLinux (mkEvent 0 0 0);
                  Macos (mkEvent 0 0 (-240)); Clavier true]
                 initial) <= 50.0.
Proof.
  apply (zoom_toujours_borne 8
           [Windows (mkEvent 0 0 1198800); Clavier false;
            OutLinux (mkEvent 0 0 0); InLinux (mkEvent 0 0 0);
            Macos (mkEvent 0 0 (-240)); Clavier true]
           initial).
  cbn. lra.
Defined.

(** C7. Whatever the current level and the integer [delta],
    [changer_niveau(delta)] sets the level to [clamp(level + delta, 0, 7)],
    a value of [0, 7] that the level label then shows; from level 7,
    [delta = +1] leaves 7 and from level 0, [delta = -1] leaves 0. *)
Theorem changer_niveau_borne :
  (forall (limite : nat) (delta : Z) (self : VonKochApp),
     let apres := snd (changer_niveau limite delta self) in
     niveau apres = Spec.clampZ (niveau self + delta) 0 7
     /\ (0 <= niveau apres <= 7)%Z
     /\ info_niveau apres = niveau apres)
  /\ (forall (limite : nat) (self : VonKochApp),
        niveau (snd (changer_niveau limite 1 (set_niveau 7 self))) = 7%Z)
  /\ (forall (limite : nat) (self : VonKochApp),
        niveau (snd (changer_niveau limite (-1) (set_niveau 0 self))) = 0%Z).
Proof.
  assert (H : forall limite delta self,
             niveau (snd (changer_niveau limite delta self))
             = Z.max 0 (Z.min 7 (niveau self + delta))).
  { intros limite delta self. unfold changer_niveau. cbv zeta.
    match goal with
    | |- niveau (snd (dessiner_flocon limite ?s)) = _ =>
        destruct (dessiner_flocon_cadre limite s) as (_ & _ & _ & Hn & _)
    end.
    rewrite Hn. reflexivity. }
  split; [ | split].
  - intros limite delta self apres. subst apres.
    rewrite H. split; [ | split].
    + unfold Spec.clampZ.
      destruct (Z.ltb_spec (niveau self + delta) 0);
        destruct (Z.ltb_spec 7 (niveau self + delta)); lia.
    + lia.
    + unfold changer_niveau. cbv zeta.
      match goal with
      | |- info_niveau (snd (dessiner_flocon limite ?s)) = _ =>
          destruct (dessiner_flocon_cadre limite s)
            as (_ & _ & _ & Hn & _ & _ & _ & _ & _ & Hi)
      end.
      rewrite Hi. reflexivity.
  - intros limite self. rewrite H. reflexivity.
  - intros limite self. rewrite H. reflexivity.
Qed.

(** C10. Each handler writes its own part of the view state.  [deplacer]
    moves the pan by the pointer's displacement when a drag is in progress
    (and records the pointer position) and leaves the zoom and the level
    as they were; every zoom handler leaves the pan and the level as they
    were; [changer_niveau] leaves the zoom and the pan as they were.  None
    of them alters the canvas size, and only [deplacer] the drag
    bookkeeping. *)
Theorem gestionnaires_cadre (limite : nat) (self : VonKochApp) :
  (forall event : Event,
     let apres := snd (deplacer limite event self) in
     zoom apres = zoom self
     /\ niveau apres = niveau self
     /\ dragging apres = dragging self
     /\ canvas_width apres = canvas_width self
     /\ canvas_height apres = canvas_height self
     /\ pan_x apres
        = (if dragging self
           then pan_x self + (event_x event - last_x self)
           else pan_x self)
     /\ pan_y apres
        = (if dragging self
           then pan_y self + (event_y event - last_y self)
           else pan_y self)
     /\ last_x apres = (if dragging self then event_x event else last_x self)
     /\ last_y apres = (if dragging self then event_y event else last_y self))
  /\ (forall ev : zoom_event,
        let apres := zoomer limite self ev in
        pan_x apres = pan_x self
        /\ pan_y apres = pan_y self
        /\ niveau apres = niveau self
        /\ dragging apres = dragging self
        /\ last_x apres = last_x self
        /\ last_y apres = last_y self
        /\ canvas_width apres = canvas_width self
        /\ canvas_height apres = canvas_height self)
  /\ (forall delta : Z,
        let apres := snd (changer_niveau limite delta self) in
        zoom apres = zoom self
        /\ pan_x apres = pan_x self
        /\ pan_y apres = pan_y self
        /\ dragging apres = dragging self
        /\ last_x apres = last_x self
        /\ last_y apres = last_y self
        /\ canvas_width apres = canvas_width self
        /\ canvas_height apres = canvas_height self).
Proof.
  split; [ | split].
  - intros event apres. subst apres. unfold deplacer.
    destruct (dragging self) eqn:Hdrag.
    + cbv zeta.
      match goal with
      | |- context [dessiner_flocon limite ?s] =>
          destruct (dessiner_flocon_cadre limite s)
            as (Hz & Hx & Hy & Hn & Hd & Hlx & Hly & Hw & Hh & _)
      end.
      rewrite Hz, Hx, Hy, Hn, Hd, Hlx, Hly, Hw, Hh.
      cbn. rewrite Hdrag. repeat split; reflexivity.
    + cbn. rewrite Hdrag. repeat split; reflexivity.
  - intros ev apres. subst apres. unfold zoomer.
    destruct ev as [e | e | e | e | b];
      [unfold zoomer_windows | unfold zoomer_macos | unfold zoomer_in_linux
       | unfold zoomer_out_linux | unfold zoomer_clavier];
      cbv zeta;
      match goal with
      | |- context [dessiner_flocon limite ?s] =>
          destruct (dessiner_flocon_cadre limite s)
            as (Hz & Hx & Hy & Hn & Hd & Hlx & Hly & Hw & Hh & _)
      end;
      rewrite Hx, Hy, Hn, Hd, Hlx, Hly, Hw, Hh;
      try destruct b; cbn; repeat split; reflexivity.
  - intros delta apres. subst apres. unfold changer_niveau. cbv zeta.
    match goal with
    | |- context [dessiner_flocon limite ?s] =>
        destruct (dessiner_flocon_cadre limite s)
          as (Hz & Hx & Hy & Hn & Hd & Hlx & Hly & Hw & Hh & _)
    end.
    rewrite Hz, Hx, Hy, Hd, Hlx, Hly, Hw, Hh.
    cbn. repeat split; reflexivity.
Qed.

(* ================================================================== *)
(** * More on the curve *)

(** One frame of the recursion, on points. *)
Lemma courbe_pas (limite : nat) (a b : point) (d : Z) :
  d <> 0%Z ->
  courbe (S limite) a b d
  = (segment1 <- courbe limite a (Spec.p1 a b) (d - 1) ;;
     segment2 <- courbe limite (Spec.p1 a b) (Spec.p2 a b) (d - 1) ;;
     segment3 <- courbe limite (Spec.p2 a b) (Spec.p3 a b) (d - 1) ;;
     segment4 <- courbe limite (Spec.p3 a b) b (d - 1) ;;
     Ok (removelast segment1 ++ removelast segment2
           ++ removelast segment3 ++ segment4)).
Proof.
  intros Hd. destruct a as [x1 y1]. destruct b as [x2 y2].
  unfold courbe. rewrite p1_code, p2_code, p3_code. cbv zeta.
  cbn [fst snd].
  rewrite calculer_points_koch_pas by exact Hd. reflexivity.
Qed.

(** With enough frames the code returns the curve [koch]. *)
Lemma courbe_koch (n : nat) :
  forall (limite : nat) (a b : point),
    (n < limite)%nat ->
    courbe limite a b (Z.of_nat n) = Ok (koch n a b).
Proof.
  induction n as [ | n IH]; intros limite a b Hlim.
  - destruct limite as [ | limite]; [lia | ].
    destruct a, b. reflexivity.
  - destruct limite as [ | limite]; [lia | ].
    rewrite courbe_pas by lia.
    replace (Z.of_nat (S n) - 1)%Z with (Z.of_nat n) by lia.
    rewrite !IH by lia. reflexivity.
Qed.

Lemma koch_forme (n : nat) (a b : point) :
  exists milieu : list point,
    koch n a b = a :: milieu ++ [b] /\ S (length milieu) = (4 ^ n)%nat.
Proof.
  assert (Hlim : (n < S n)%nat) by lia.
  destruct (calculer_points_koch_forme n (S n) (fst a) (snd a)
              (fst b) (snd b) Hlim) as (milieu & E & L).
  pose proof (courbe_koch n (S n) a b Hlim) as K.
  unfold courbe in K. rewrite K in E. injection E as E.
  exists milieu. rewrite E. destruct a, b. split; [reflexivity | exact L].
Qed.

(** Without enough frames the recursion runs out before level zero. *)
Lemma calculer_points_koch_limite (limite : nat) :
  forall (x1 y1 x2 y2 : R) (d : Z),
    (Z.of_nat limite <= d)%Z ->
    calculer_points_koch limite x1 y1 x2 y2 d = Raise RecursionError.
Proof.
  induction limite as [ | limite IH]; intros x1 y1 x2 y2 d Hd.
  - reflexivity.
  - rewrite calculer_points_koch_pas by lia.
    cbv zeta. rewrite IH by lia. reflexivity.
Qed.

(** X1. A call of [calculer_points_koch] at level [d] needs exactly
    [d + 1] frames: it returns a list when [0 <= d < limite] and ends in
    [RecursionError] in every other case, a negative level included.  It
    never ends in [ValueError]: the square root is always taken of a sum
    of two squares. *)
Theorem calculer_points_koch_profondeur
  (limite : nat) (x1 y1 x2 y2 : R) (d : Z) :
  ((0 <= d < Z.of_nat limite)%Z ->
   exists points : list point,
     calculer_points_koch limite x1 y1 x2 y2 d = Ok points)
  /\ (~ (0 <= d < Z.of_nat limite)%Z ->
      calculer_points_koch limite x1 y1 x2 y2 d = Raise RecursionError)
  /\ calculer_points_koch limite x1 y1 x2 y2 d <> Raise ValueError.
Proof.
  assert (Hok : (0 <= d < Z.of_nat limite)%Z ->
                exists points : list point,
                  calculer_points_koch limite x1 y1 x2 y2 d = Ok points).
  { intros Hd.
    destruct (calculer_points_koch_forme_Z limite x1 y1 x2 y2 d)
      as (milieu & E & _); [lia | lia | ].
    eexists. exact E. }
  assert (Hko : ~ (0 <= d < Z.of_nat limite)%Z ->
                calculer_points_koch limite x1 y1 x2 y2 d
                = Raise RecursionError).
  { intros Hd.
    destruct (Z.lt_ge_cases d 0) as [Hneg | Hpos].
    - apply calculer_points_koch_negatif. exact Hneg.
    - apply calculer_points_koch_limite. lia. }
  split; [exact Hok | ]. split; [exact Hko | ].
  destruct (Z.lt_ge_cases d 0) as [Hneg | Hpos].
  - rewrite Hko by lia. discriminate.
  - destruct (Z.lt_ge_cases d (Z.of_nat limite)) as [Hlt | Hge].
    + destruct Hok as (points & E); [lia | ]. rewrite E. discriminate.
    + rewrite Hko by lia. discriminate.
Qed.

Lemma dist_longueur (a b : point) :
  Spec.dist a b = Spec.length (Spec.minus b a).
Proof. reflexivity. Qed.

Lemma dist_nulle (a b : point) : Spec.dist a b = 0 -> a = b.
Proof.
  intros H. rewrite dist_longueur in H. apply longueur_nulle in H.
  destruct a as [x1 y1]. destruct b as [x2 y2].
  unfold Spec.minus in H. cbn [fst snd] in H.
  injection H as Hx Hy. f_equal; lra.
Qed.

Lemma dist_positive (a b : point) : a <> b -> 0 < Spec.dist a b.
Proof.
  intros Hne.
  assert (H : 0 <= Spec.dist a b) by apply sqrt_pos.
  destruct H as [H | H]; [exact H | ].
  exfalso. apply Hne. apply dist_nulle. symmetry. exact H.
Qed.

(** ** Raising the level only adds points *)

Lemma koch_S_In (n : nat) (a b p : point) :
  In p (koch (S n) a b)
  <-> In p (koch n a (Spec.p1 a b))
      \/ In p (koch n (Spec.p1 a b) (Spec.p2 a b))
      \/ In p (koch n (Spec.p2 a b) (Spec.p3 a b))
      \/ In p (koch n (Spec.p3 a b) b).
Proof.
  cbn [koch].
  destruct (koch_forme n a (Spec.p1 a b)) as (m1 & E1 & _).
  destruct (koch_forme n (Spec.p1 a b) (Spec.p2 a b)) as (m2 & E2 & _).
  destruct (koch_forme n (Spec.p2 a b) (Spec.p3 a b)) as (m3 & E3 & _).
  destruct (koch_forme n (Spec.p3 a b) b) as (m4 & E4 & _).
  rewrite E1, E2, E3, E4, !removelast_cons_snoc.
  repeat (rewrite ?in_app_iff; cbn [In]).
  tauto.
Qed.

Lemma koch_croissant (n : nat) :
  forall a b p : point, In p (koch n a b) -> In p (koch (S n) a b).
Proof.
  induction n as [ | n IH]; intros a b p H.
  - cbn in H |- *. tauto.
  - apply koch_S_In. apply koch_S_In in H.
    destruct H as [H | [H | [H | H]]]; apply IH in H; tauto.
Qed.

(** X3. Raising the level by one keeps every point of the curve: with
    enough frames for level [d + 1], each point that
    [calculer_points_koch] returns at level [d >= 0] is among those it
    returns at level [d + 1] on the same segment. *)
Theorem courbe_niveau_suivant (limite : nat) (a b : point) (d : Z) :
  (0 <= d)%Z ->
  (Z.to_nat d + 1 < limite)%nat ->
  exists points suivants : list point,
    courbe limite a b d = Ok points
    /\ courbe limite a b (d + 1) = Ok suivants
    /\ incl points suivants.
Proof.
  intros Hd Hlim.
  exists (koch (Z.to_nat d) a b), (koch (S (Z.to_nat d)) a b).
  split; [ | split].
  - rewrite <- (courbe_koch (Z.to_nat d) limite a b) by lia.
    rewrite Z2Nat.id by exact Hd. reflexivity.
  - rewrite <- (courbe_koch (S (Z.to_nat d)) limite a b) by lia.
    f_equal. lia.
  - intros p. apply koch_croissant.
Qed.

Lemma courbe_niveau_suivant_witness :
  exists points suivants : list point,
    courbe 4 (0, 0) (9, 0) 2 = Ok points
    /\ courbe 4 (0, 0) (9, 0) (2 + 1) = Ok suivants
    /\ incl points suivants.
Proof.
  apply (courbe_niveau_suivant 4 (0, 0) (9, 0) 2); [lia | cbn; lia].
Defined.

Lemma p2_par_rotation (a b : point) :
  Spec.p2 a b
  = (fst a + (fst b - fst a) / 3
     + ((fst b - fst a) / 3 * (1 / 2)
        - (snd b - snd a) / 3 * (R_sqrt.sqrt 3 / 2)),
     snd a + (snd b - snd a) / 3
     + ((fst b - fst a) / 3 * (R_sqrt.sqrt 3 / 2)
        + (snd b - snd a) / 3 * (1 / 2))).
Proof.
  destruct a as [x1 y1]. destruct b as [x2 y2].
  rewrite p2_code. cbv zeta.
  rewrite pointe_x, pointe_y, cos_PI3, sin_PI3. reflexivity.
Qed.

(** ** The spike in the result *)








Lemma det_p2 (a b : point) :
  det a b (Spec.p2 a b)
  = R_sqrt.sqrt 3 / 6
    * ((fst b - fst a) * (fst b - fst a)
       + (snd b - snd a) * (snd b - snd a)).
Proof.
  rewrite p2_par_rotation. unfold det. cbn [fst snd]. field.
Qed.






(* ================================================================== *)
(** * More on the outline *)

Lemma tous_points_koch (n : nat) (limite : nat) (self : VonKochApp) :
  niveau self = Z.of_nat n ->
  (n < limite)%nat ->
  let '(A, B, C) := sommets self in
  tous_points limite self
  = Ok (removelast (koch n A B) ++ removelast (koch n B C)
          ++ removelast (koch n C A)).
Proof.
  intros Hniv Hlim. unfold tous_points.
  destruct (sommets self) as [[[x1 y1] [x2 y2]] [x3 y3]].
  change (calculer_points_koch limite x1 y1 x2 y2 (niveau self))
    with (courbe limite (x1, y1) (x2, y2) (niveau self)).
  change (calculer_points_koch limite x2 y2 x3 y3 (niveau self))
    with (courbe limite (x2, y2) (x3, y3) (niveau self)).
  change (calculer_points_koch limite x3 y3 x1 y1 (niveau self))
    with (courbe limite (x3, y3) (x1, y1) (niveau self)).
  rewrite Hniv, !courbe_koch by exact Hlim.
  cbn [bind]. rewrite app_nil_l, <- app_assoc. reflexivity.
Qed.

(** ** The spikes point outward *)

Lemma det_p2_positif (a b : point) : a <> b -> 0 < det a b (Spec.p2 a b).
Proof.
  intros Hne. rewrite det_p2.
  pose proof racine_trois_bornes as H3.
  pose proof (dist_positive a b Hne) as Hd.
  assert (Hs : 0 <= (fst b - fst a) * (fst b - fst a)
                    + (snd b - snd a) * (snd b - snd a)).
  { pose proof (Rle_0_sqr (fst b - fst a)) as Hx.
    pose proof (Rle_0_sqr (snd b - snd a)) as Hy.
    unfold Rsqr in Hx, Hy. lra. }
  pose proof (sqrt_sqrt _ Hs) as Hq.
  change (R_sqrt.sqrt ((fst b - fst a) * (fst b - fst a)
                       + (snd b - snd a) * (snd b - snd a)))
    with (Spec.dist a b) in Hq.
  rewrite <- Hq.
  apply Rmult_lt_0_compat; [lra | ].
  apply Rmult_lt_0_compat; exact Hd.
Qed.

Lemma koch_S_pointe (n : nat) (a b : point) :
  In (Spec.p2 a b) (removelast (koch (S n) a b)).
Proof.
  cbn [koch].
  destruct (koch_forme n a (Spec.p1 a b)) as (m1 & E1 & _).
  destruct (koch_forme n (Spec.p1 a b) (Spec.p2 a b)) as (m2 & E2 & _).
  destruct (koch_forme n (Spec.p2 a b) (Spec.p3 a b)) as (m3 & E3 & _).
  destruct (koch_forme n (Spec.p3 a b) b) as (m4 & E4 & _).
  rewrite E1, E2, E3, E4, !removelast_cons_snoc.
  replace ((a :: m1) ++ (Spec.p1 a b :: m2) ++ (Spec.p2 a b :: m3)
           ++ Spec.p3 a b :: m4 ++ [b])
    with (((a :: m1) ++ (Spec.p1 a b :: m2) ++ (Spec.p2 a b :: m3)
           ++ Spec.p3 a b :: m4) ++ [b])
    by (repeat (rewrite <- ?app_assoc; cbn [app]); reflexivity).
  rewrite removelast_last.
  repeat (rewrite ?in_app_iff; cbn [In]). tauto.
Qed.

(** X7. The snowflake is a snowflake, not its inside-out variant: for a
    zoom [z > 0], the apex of the spike that the first subdivision raises
    on each side of the base triangle lies strictly on the other side of
    that side's line than the third vertex of the triangle.  At every
    level [d >= 1], drawn with more than [d] frames, these three apexes
    are points of the outline. *)
Theorem pointes_vers_l_exterieur (limite : nat) (self : VonKochApp) (d : Z) :
  niveau self = d ->
  (1 <= d)%Z ->
  (Z.to_nat d < limite)%nat ->
  0 < zoom self ->
  let '(A, B, C) := sommets self in
  (det A B C < 0 /\ 0 < det A B (Spec.p2 A B))
  /\ (det B C A < 0 /\ 0 < det B C (Spec.p2 B C))
  /\ (det C A B < 0 /\ 0 < det C A (Spec.p2 C A))
  /\ exists points : list point,
       tous_points limite self = Ok points
       /\ In (Spec.p2 A B) points
       /\ In (Spec.p2 B C) points
       /\ In (Spec.p2 C A) points.
Proof.
  intros Hniv Hd Hlim Hz.
  assert (Hn : niveau self = Z.of_nat (Z.to_nat d)) by lia.
  pose proof (tous_points_koch (Z.to_nat d) limite self Hn Hlim) as T.
  assert (Hdet : let '(A, B, C) := sommets self in
                 det A B C < 0 /\ det B C A < 0 /\ det C A B < 0
                 /\ A <> B /\ B <> C /\ C <> A).
  { pose proof racine_trois_bornes as H3.
    assert (Ht : 0 < TAILLE_FLOCON * zoom self)
      by (unfold TAILLE_FLOCON; lra).
    unfold sommets, det. cbv zeta. cbn [fst snd].
    set (t := TAILLE_FLOCON * zoom self) in *.
    set (s := R_sqrt.sqrt 3) in *.
    assert (Hts : 0 < t * s) by (apply Rmult_lt_0_compat; lra).
    assert (Htt : 0 < t * t) by (apply Rmult_lt_0_compat; lra).
    assert (Htts : 0 < t * t * s) by (apply Rmult_lt_0_compat; lra).
    repeat split.
    - apply Rminus_lt. field_simplify. lra.
    - apply Rminus_lt. field_simplify. lra.
    - apply Rminus_lt. field_simplify. lra.
    - intros H. injection H as H1 H2. lra.
    - intros H. injection H as H1. lra.
    - intros H. injection H as H1 H2. lra. }
  destruct (sommets self) as [[A B] C].
  destruct Hdet as (H1 & H2 & H3 & NAB & NBC & NCA).
  split; [split; [exact H1 | apply det_p2_positif; exact NAB] | ].
  split; [split; [exact H2 | apply det_p2_positif; exact NBC] | ].
  split; [split; [exact H3 | apply det_p2_positif; exact NCA] | ].
  eexists. split; [exact T | ].
  destruct (Z.to_nat d) as [ | n] eqn:En; [lia | ].
  repeat (rewrite ?in_app_iff).
  pose proof (koch_S_pointe n A B). pose proof (koch_S_pointe n B C).
  pose proof (koch_S_pointe n C A). tauto.
Qed.

Lemma pointes_vers_l_exterieur_witness :
  let '(A, B, C) := sommets initial in
  (det A B C < 0 /\ 0 < det A B (Spec.p2 A B))
  /\ (det B C A < 0 /\ 0 < det B C (Spec.p2 B C))
  /\ (det C A B < 0 /\ 0 < det C A (Spec.p2 C A))
  /\ exists points : list point,
       tous_points 5 initial = Ok points
       /\ In (Spec.p2 A B) points
       /\ In (Spec.p2 B C) points
       /\ In (Spec.p2 C A) points.
Proof.
  apply (pointes_vers_l_exterieur 5 initial 4).
  - reflexivity.
  - lia.
  - cbn. lia.
  - cbn. lra.
Defined.

(* ================================================================== *)
(** * Dragging *)

Lemma deplacer_en_cours (limite : nat) (event : Event) (self : VonKochApp) :
  dragging self = true ->
  let apres := snd (deplacer limite event self) in
  zoom apres = zoom self
  /\ niveau apres = niveau self
  /\ dragging apres = true
  /\ canvas_width apres = canvas_width self
  /\ canvas_height apres = canvas_height self
  /\ pan_x apres = pan_x self + (event_x event - last_x self)
  /\ pan_y apres = pan_y self + (event_y event - last_y self)
  /\ last_x apres = event_x event
  /\ last_y apres = event_y event.
Proof.
  intros Hdrag. unfold deplacer. rewrite Hdrag. cbv zeta.
  match goal with
  | |- context [dessiner_flocon limite ?s] =>
      destruct (dessiner_flocon_cadre limite s)
        as (Hz & Hx & Hy & Hn & Hd & Hlx & Hly & Hw & Hh & _)
  end.
  rewrite Hz, Hx, Hy, Hn, Hd, Hlx, Hly, Hw, Hh.
  cbn. rewrite Hdrag. repeat split; reflexivity.
Qed.

Lemma last_cons {A : Type} (l : list A) :
  forall a d : A, last (a :: l) d = last l a.
Proof.
  induction l as [ | b l IH]; intros a d; [reflexivity | ].
  change (last (a :: b :: l) d) with (last (b :: l) d).
  rewrite !IH. reflexivity.
Qed.

Lemma glisser_bilan (limite : nat) (events : list Event) :
  forall (self : VonKochApp) (debut : Event),
    dragging self = true ->
    last_x self = event_x debut ->
    last_y self = event_y debut ->
    let fin := last events debut in
    let apres := glisser limite events self in
    zoom apres = zoom self
    /\ niveau apres = niveau self
    /\ dragging apres = true
    /\ canvas_width apres = canvas_width self
    /\ canvas_height apres = canvas_height self
    /\ pan_x apres = pan_x self + (event_x fin - event_x debut)
    /\ pan_y apres = pan_y self + (event_y fin - event_y debut)
    /\ last_x apres = event_x fin
    /\ last_y apres = event_y fin.
Proof.
  unfold glisser.
  induction events as [ | event events IH]; intros self debut Hd Hx Hy.
  - cbn. repeat split; try assumption; ring.
  - cbn [fold_left].
    destruct (deplacer_en_cours limite event self Hd)
      as (Hz1 & Hn1 & Hd1 & Hw1 & Hh1 & Hpx1 & Hpy1 & Hlx1 & Hly1).
    destruct (IH (snd (deplacer limite event self)) event Hd1 Hlx1 Hly1)
      as (Hz2 & Hn2 & Hd2 & Hw2 & Hh2 & Hpx2 & Hpy2 & Hlx2 & Hly2).
    cbv zeta. rewrite last_cons.
    rewrite Hz2, Hn2, Hd2, Hw2, Hh2, Hpx2, Hpy2, Hlx2, Hly2.
    rewrite Hz1, Hn1, Hw1, Hh1, Hpx1, Hpy1, Hx, Hy.
    repeat split; ring.
Qed.

(** X8. A drag moves the view by the displacement of the pointer, and
    only by it: after [commencer_deplacement] at a position and any
    number of [deplacer] events, the pan has grown by the difference
    between the last pointer position and the first, whatever the path in
    between, that last position is recorded, the drag is still in
    progress, and the zoom and the level are as before. *)
Theorem glisser_suit_le_pointeur
  (limite : nat) (debut : Event) (events : list Event)
  (self : VonKochApp) :
  let fin := last events debut in
  let apres :=
    glisser limite events (snd (commencer_deplacement debut self)) in
  pan_x apres = pan_x self + (event_x fin - event_x debut)
  /\ pan_y apres = pan_y self + (event_y fin - event_y debut)
  /\ zoom apres = zoom self
  /\ niveau apres = niveau self
  /\ dragging apres = true
  /\ last_x apres = event_x fin
  /\ last_y apres = event_y fin.
Proof.
  intros fin apres.
  set (s0 := snd (commencer_deplacement debut self)).
  assert (H0 : dragging s0 = true /\ last_x s0 = event_x debut
               /\ last_y s0 = event_y debut) by (repeat split).
  destruct H0 as (Hd0 & Hx0 & Hy0).
  destruct (glisser_bilan limite events s0 debut Hd0 Hx0 Hy0)
    as (Hz & Hn & Hd & _ & _ & Hpx & Hpy & Hlx & Hly).
  repeat split; assumption.
Qed.

(* ================================================================== *)
(** * Zooming in and out *)

(** X10. Zooming in never zooms out, and the bounds hold fast: from a zoom
    in [0.1, 50.0], the zoom-in handlers (button 4 on Linux, the [+] key
    and button, the wheel with a delta [>= 0] on Windows and macOS) leave
    the zoom at least as large; the zoom-out handlers (button 5, the [-]
    key and button, the wheel with a delta [<= 0]) leave it at most as
    large.  At 50.0 every zoom-in handler leaves 50.0, at 0.1 every
    zoom-out handler leaves 0.1. *)
Theorem zoomer_monotone (limite : nat) (self : VonKochApp) :
  0.1 <= zoom self <= 50.0 ->
  let apres := fun ev => zoom (zoomer limite self ev) in
  (forall event : Event, zoom self <= apres (InLinux event))
  /\ zoom self <= apres (Clavier true)
  /\ (forall event : Event,
        0 <= event_delta event ->
        zoom self <= apres (Windows event)
        /\ zoom self <= apres (Macos event))
  /\ (forall event : Event, apres (OutLinux event) <= zoom self)
  /\ apres (Clavier false) <= zoom self
  /\ (forall event : Event,
        event_delta event <= 0 ->
        apres (Windows event) <= zoom self
        /\ apres (Macos event) <= zoom self)
  /\ (zoom self = 50.0 ->
      (forall event : Event, apres (InLinux event) = 50.0)
      /\ apres (Clavier true) = 50.0
      /\ (forall event : Event,
            0 <= event_delta event ->
            apres (Windows event) = 50.0 /\ apres (Macos event) = 50.0))
  /\ (zoom self = 0.1 ->
      (forall event : Event, apres (OutLinux event) = 0.1)
      /\ apres (Clavier false) = 0.1
      /\ (forall event : Event,
            event_delta event <= 0 ->
            apres (Windows event) = 0.1 /\ apres (Macos event) = 0.1)).
Proof.
  intros Hz apres. subst apres. cbv beta. unfold zoomer.
  assert (Hc : forall f : R,
             (1 <= f -> zoom self <= Spec.applyZoomFactor f (zoom self))
             /\ (f <= 1 -> Spec.applyZoomFactor f (zoom self) <= zoom self)).
  { intros f. unfold Spec.applyZoomFactor, Spec.clamp.
    destruct (Rlt_dec (zoom self * f) 0.1);
      destruct (Rlt_dec 50.0 (zoom self * f)); split; intros Hf; nra. }
  assert (Hhaut : forall f : R,
             1 <= f -> zoom self = 50.0 ->
             Spec.applyZoomFactor f (zoom self) = 50.0).
  { intros f Hf H50. rewrite H50.
    unfold Spec.applyZoomFactor, Spec.clamp.
    destruct (Rlt_dec (50.0 * f) 0.1);
      destruct (Rlt_dec 50.0 (50.0 * f)); lra. }
  assert (Hbas : forall f : R,
             f <= 1 -> zoom self = 0.1 ->
             Spec.applyZoomFactor f (zoom self) = 0.1).
  { intros f Hf H01. rewrite H01.
    unfold Spec.applyZoomFactor, Spec.clamp.
    destruct (Rlt_dec (0.1 * f) 0.1);
      destruct (Rlt_dec 50.0 (0.1 * f)); lra. }
  split; [intros e; rewrite zoomer_in_linux_zoom by lra; apply Hc; lra | ].
  split; [rewrite zoomer_clavier_zoom; apply Hc; lra | ].
  split.
  { intros e He. rewrite zoomer_windows_zoom, zoomer_macos_zoom.
    split; apply Hc; lra. }
  split; [intros e; rewrite zoomer_out_linux_zoom by lra; apply Hc; lra | ].
  split; [rewrite zoomer_clavier_zoom; apply Hc; lra | ].
  split.
  { intros e He. rewrite zoomer_windows_zoom, zoomer_macos_zoom.
    split; apply Hc; lra. }
  split.
  - intros H50. split; [ | split].
    + intros e. rewrite zoomer_in_linux_zoom by lra. apply Hhaut; lra.
    + rewrite zoomer_clavier_zoom. apply Hhaut; lra.
    + intros e He. rewrite zoomer_windows_zoom, zoomer_macos_zoom.
      split; apply Hhaut; lra.
  - intros H01. split; [ | split].
    + intros e. rewrite zoomer_out_linux_zoom by lra. apply Hbas; lra.
    + rewrite zoomer_clavier_zoom. apply Hbas; lra.
    + intros e He. rewrite zoomer_windows_zoom, zoomer_macos_zoom.
      split; apply Hbas; lra.
Qed.

Lemma zoomer_monotone_witness :
  zoom (set_zoom 50.0 initial)
  <= zoom (zoomer 5 (set_zoom 50.0 initial) (Clavier true))
  /\ zoom (zoomer 5 (set_zoom 50.0 initial) (Windows (mkEvent 0 0 120)))
     = 50.0.
Proof.
  destruct (zoomer_monotone 5 (set_zoom 50.0 initial))
    as (_ & Hin & _ & _ & _ & _ & H50 & _).
  - cbn. lra.
  - split; [exact Hin | ].
    destruct H50 as (_ & _ & Hw); [reflexivity | ].
    apply (Hw (mkEvent 0 0 120)). cbn. lra.
Defined.

(* ================================================================== *)
(** * The level buttons *)

Lemma changer_niveau_niveau (limite : nat) (delta : Z) (self : VonKochApp) :
  niveau (snd (changer_niveau limite delta self))
  = Z.max 0 (Z.min 7 (niveau self + delta)).
Proof.
  unfold changer_niveau. cbv zeta.
  match goal with
  | |- niveau (snd (dessiner_flocon limite ?s)) = _ =>
      destruct (dessiner_flocon_cadre limite s) as (_ & _ & _ & Hn & _)
  end.
  rewrite Hn. reflexivity.
Qed.

(** X11. Two changes of level add up as long as the first one is not
    clamped: if [0 <= niveau + a <= 7], [changer_niveau(a)] followed by
    [changer_niveau(b)] gives the level of [changer_niveau(a + b)].  With
    the two buttons, [Niveau +] then [Niveau -] gives back a level of
    [0, 6] but turns 7 into 6, and [Niveau -] then [Niveau +] gives back a
    level of [1, 7] but turns 0 into 1. *)
Theorem changer_niveau_compose (limite : nat) (self : VonKochApp) :
  (0 <= niveau self <= 7)%Z ->
  let puis := fun a b =>
    niveau (snd (changer_niveau limite b
                   (snd (changer_niveau limite a self)))) in
  (forall a b : Z,
     (0 <= niveau self + a <= 7)%Z ->
     puis a b = niveau (snd (changer_niveau limite (a + b) self)))
  /\ puis 1%Z (-1)%Z = (if (niveau self =? 7)%Z then 6%Z else niveau self)
  /\ puis (-1)%Z 1%Z = (if (niveau self =? 0)%Z then 1%Z else niveau self).
Proof.
  intros Hn puis. subst puis. cbv beta.
  split; [ | split].
  - intros a b Ha. rewrite !changer_niveau_niveau. lia.
  - rewrite !changer_niveau_niveau.
    destruct (Z.eqb_spec (niveau self) 7); lia.
  - rewrite !changer_niveau_niveau.
    destruct (Z.eqb_spec (niveau self) 0); lia.
Qed.

Lemma changer_niveau_compose_witness :
  niveau (snd (changer_niveau 8 (-1)
                 (snd (changer_niveau 8 1 (set_niveau 7 initial)))))
  = (if (niveau (set_niveau 7 initial) =? 7)%Z
     then 6%Z else niveau (set_niveau 7 initial)).
Proof.
  apply (changer_niveau_compose 8 (set_niveau 7 initial)). cbn. lia.
Defined.

(* ================================================================== *)
(** * Redrawing *)

Lemma aplatir_length (points : list point) :
  length (aplatir points) = (2 * length points)%nat.
Proof.
  unfold aplatir.
  induction points as [ | p points IH]; [reflexivity | ].
  cbn [flat_map app length]. rewrite IH. lia.
Qed.

(** A redraw at a level that the frames allow succeeds and brings the
    window up to date. *)
Lemma dessiner_flocon_reussit (limite : nat) (self : VonKochApp) :
  (0 <= niveau self)%Z ->
  (Z.to_nat (niveau self) < limite)%nat ->
  exists points : list point,
    tous_points limite self = Ok points
    /\ Z.of_nat (length points) = (3 * 4 ^ niveau self)%Z
    /\ dessiner_flocon limite self
       = (Ok tt, set_info_zoom (zoom self) (set_canvas [aplatir points] self)).
Proof.
  intros Hniv Hlim.
  assert (Hn : niveau self = Z.of_nat (Z.to_nat (niveau self))) by lia.
  pose proof (tous_points_forme (Z.to_nat (niveau self)) limite self Hn Hlim)
    as H.
  destruct (sommets self) as [[A B] C].
  destruct H as (m1 & m2 & m3 & _ & _ & _ & E & L1 & L2 & L3).
  eexists. split; [exact E | ]. split.
  - cbn [length]. repeat (rewrite ?length_app; cbn [length]).
    rewrite puissance_quatre by exact Hniv. lia.
  - unfold dessiner_flocon.
    change (tous_points limite (set_canvas [] self))
      with (tous_points limite self).
    rewrite E. reflexivity.
Qed.

(** X12. A redraw that runs out of frames erases the snowflake: when the
    level is negative or not below the number of frames allowed,
    [dessiner_flocon] ends in [RecursionError] after it has emptied the
    canvas; the polygon is not drawn again and the zoom label keeps its
    former text.  Nothing else of the object changes. *)
Theorem dessiner_flocon_echec (limite : nat) (self : VonKochApp) :
  ~ (0 <= niveau self < Z.of_nat limite)%Z ->
  dessiner_flocon limite self = (Raise RecursionError, set_canvas [] self)
  /\ canvas (snd (dessiner_flocon limite self)) = []
  /\ info_zoom (snd (dessiner_flocon limite self)) = info_zoom self.
Proof.
  intros Hniv.
  assert (E : dessiner_flocon limite self
              = (Raise RecursionError, set_canvas [] self)).
  { unfold dessiner_flocon.
    change (tous_points limite (set_canvas [] self))
      with (tous_points limite self).
    unfold tous_points.
    destruct (sommets self) as [[[x1 y1] [x2 y2]] [x3 y3]].
    destruct (Z.lt_ge_cases (niveau self) 0) as [Hneg | Hpos].
    - rewrite calculer_points_koch_negatif by exact Hneg. reflexivity.
    - rewrite calculer_points_koch_limite by lia. reflexivity. }
  rewrite E. repeat split.
Qed.

Lemma dessiner_flocon_echec_witness :
  dessiner_flocon 4 initial = (Raise RecursionError, set_canvas [] initial)
  /\ canvas (snd (dessiner_flocon 4 initial)) = []
  /\ info_zoom (snd (dessiner_flocon 4 initial)) = info_zoom initial.
Proof.
  apply (dessiner_flocon_echec 4 initial).
  change (niveau initial) with 4%Z. cbn. lia.
Defined.

(* ================================================================== *)
(** * The window is always valid and up to date *)

Lemma a_jour_redessine (limite : nat) (self : VonKochApp) :
  (7 < limite)%nat ->
  0.1 <= zoom self <= 50.0 ->
  (0 <= niveau self <= 7)%Z ->
  info_niveau self = niveau self ->
  fst (dessiner_flocon limite self) = Ok tt
  /\ a_jour limite (snd (dessiner_flocon limite self)).
Proof.
  intros Hlim Hz Hn Hi.
  destruct (dessiner_flocon_reussit limite self) as (points & T & L & E);
    [lia | lia | ].
  rewrite E. split; [reflexivity | ].
  unfold a_jour. cbn [snd].
  split; [exact Hz | ]. split; [exact Hn | ].
  split; [reflexivity | ]. split; [exact Hi | ].
  exists points. split; [exact T | ]. split; [reflexivity | exact L].
Qed.

Lemma a_jour_zoomer (limite : nat) (ev : zoom_event) (self : VonKochApp) :
  (7 < limite)%nat ->
  a_jour limite self ->
  forall r : effect,
    r = match ev with
        | Windows event => zoomer_windows limite event self
        | Macos event => zoomer_macos limite event self
        | InLinux event => zoomer_in_linux limite event self
        | OutLinux event => zoomer_out_linux limite event self
        | Clavier zoom_in => zoomer_clavier limite zoom_in self
        end ->
    fst r = Ok tt /\ a_jour limite (snd r).
Proof.
  intros Hlim (Hz & Hn & _ & Hi & _) r ->.
  pose proof (zoomer_bornes limite self ev Hz) as Hb.
  unfold zoomer in Hb.
  destruct ev as [e | e | e | e | b];
    [unfold zoomer_windows in * | unfold zoomer_macos in *
     | unfold zoomer_in_linux in * | unfold zoomer_out_linux in *
     | unfold zoomer_clavier in *];
    cbv zeta in *;
    rewrite zoom_dessiner_flocon in Hb;
    (apply a_jour_redessine; [exact Hlim | exact Hb | | ]);
    try destruct b; cbn; assumption.
Qed.

Lemma a_jour_traiter
  (limite : nat) (os : systeme) (ev : tk_event) (self : VonKochApp) :
  (7 < limite)%nat ->
  a_jour limite self ->
  fst (traiter limite os ev self) = Ok tt
  /\ a_jour limite (snd (traiter limite os ev self)).
Proof.
  intros Hlim Hj.
  assert (Hmeme : fst (Ok tt, self) = Ok tt /\ a_jour limite (snd (Ok tt, self)))
    by (split; [reflexivity | exact Hj]).
  destruct ev as [e | e | e | e | e | e | | | | | | ]; cbn [traiter].
  - split; [reflexivity | exact Hj].
  - unfold deplacer. destruct (dragging self); [ | exact Hmeme].
    destruct Hj as (Hz & Hn & _ & Hi & _).
    cbv zeta. apply a_jour_redessine; assumption.
  - split; [reflexivity | exact Hj].
  - destruct os; [ | | exact Hmeme].
    + apply (a_jour_zoomer limite (Windows e) self Hlim Hj). reflexivity.
    + apply (a_jour_zoomer limite (Macos e) self Hlim Hj). reflexivity.
  - destruct os; [exact Hmeme | exact Hmeme | ].
    apply (a_jour_zoomer limite (InLinux e) self Hlim Hj). reflexivity.
  - destruct os; [exact Hmeme | exact Hmeme | ].
    apply (a_jour_zoomer limite (OutLinux e) self Hlim Hj). reflexivity.
  - apply (a_jour_zoomer limite (Clavier true) self Hlim Hj). reflexivity.
  - apply (a_jour_zoomer limite (Clavier false) self Hlim Hj). reflexivity.
  - apply (a_jour_zoomer limite (Clavier true) self Hlim Hj). reflexivity.
  - apply (a_jour_zoomer limite (Clavier false) self Hlim Hj). reflexivity.
  - destruct Hj as (Hz & Hn & _ & Hi & _).
    unfold changer_niveau. cbv zeta.
    apply a_jour_redessine; [exact Hlim | exact Hz | cbn; lia | reflexivity].
  - destruct Hj as (Hz & Hn & _ & Hi & _).
    unfold changer_niveau. cbv zeta.
    apply a_jour_redessine; [exact Hlim | exact Hz | cbn; lia | reflexivity].
Qed.

Lemma a_jour_init (limite : nat) :
  (7 < limite)%nat ->
  fst (init limite) = Ok tt /\ a_jour limite (snd (init limite)).
Proof.
  intros Hlim. unfold init. cbv zeta.
  destruct (dessiner_flocon_reussit limite initial) as (points & T & L & E).
  { change (niveau initial) with 4%Z. lia. }
  { change (Z.to_nat (niveau initial)) with 4%nat. lia. }
  rewrite E. split; [reflexivity | ].
  unfold a_jour. cbn [snd].
  split; [cbn; lra | ]. split; [cbn; unfold NIVEAU_RECURSION; lia | ].
  split; [reflexivity | ]. split; [reflexivity | ].
  exists points. split; [exact T | ]. split; [reflexivity | exact L].
Qed.

Lemma a_jour_derouler
  (limite : nat) (os : systeme) (evs : list tk_event) :
  (7 < limite)%nat ->
  forall self : VonKochApp,
    a_jour limite self ->
    Forall (fun r => r = Ok tt) (fst (derouler limite os evs self))
    /\ a_jour limite (snd (derouler limite os evs self)).
Proof.
  intros Hlim.
  induction evs as [ | ev evs IH]; intros self Hj.
  - split; [constructor | exact Hj].
  - cbn [derouler].
    destruct (a_jour_traiter limite os ev self Hlim Hj) as (Hr & Hj').
    destruct (traiter limite os ev self) as [r s]. cbn [fst snd] in Hr, Hj'.
    destruct (IH s Hj') as (Hrs & Hj'').
    destruct (derouler limite os evs s) as [rs s']. cbn [fst snd] in *.
    split; [constructor; assumption | exact Hj''].
Qed.

(** X13. The window stays valid and up to date for ever.  With more than
    seven frames for the recursion, on any system, [__init__] and then
    any sequence of events whatever run without any exception, and at the
    end the zoom is in [0.1, 50.0], the level in [0, 7], both labels show
    the current values, and the canvas holds exactly one polygon: the
    outline of the current zoom, pan and level, with [3 * 4^niveau]
    points, hence twice as many coordinates. *)
Theorem fenetre_toujours_a_jour
  (limite : nat) (os : systeme) (evs : list tk_event) :
  (7 < limite)%nat ->
  let fin := snd (derouler limite os evs (snd (init limite))) in
  fst (init limite) = Ok tt
  /\ Forall (fun r => r = Ok tt)
       (fst (derouler limite os evs (snd (init limite))))
  /\ a_jour limite fin
  /\ exists polygone : list R,
       canvas fin = [polygone]
       /\ Z.of_nat (length polygone) = (2 * (3 * 4 ^ niveau fin))%Z.
Proof.
  intros Hlim fin.
  destruct (a_jour_init limite Hlim) as (H0 & Hj0).
  destruct (a_jour_derouler limite os evs Hlim _ Hj0) as (Hrs & Hj).
  fold fin in Hj.
  split; [exact H0 | ]. split; [exact Hrs | ]. split; [exact Hj | ].
  destruct Hj as (_ & _ & _ & _ & points & _ & Hc & L).
  exists (aplatir points). split; [exact Hc | ].
  rewrite aplatir_length. lia.
Qed.

Lemma fenetre_toujours_a_jour_witness :
  let evs := [ButtonPress1 (mkEvent 10 10 0); B1Motion (mkEvent 30 5 0);
              ButtonRelease1 (mkEvent 30 5 0); MouseWheel (mkEvent 0 0 120);
              Button4 (mkEvent 0 0 0); KeyMinus; BoutonNiveauPlus;
              BoutonNiveauPlus; BoutonNiveauPlus; BoutonNiveauPlus] in
  let fin := snd (derouler 8 OsAutre evs (snd (init 8))) in
  fst (init 8) = Ok tt
  /\ Forall (fun r => r = Ok tt) (fst (derouler 8 OsAutre evs (snd (init 8))))
  /\ a_jour 8 fin
  /\ exists polygone : list R,
       canvas fin = [polygone]
       /\ Z.of_nat (length polygone) = (2 * (3 * 4 ^ niveau fin))%Z.
Proof.
  apply (fenetre_toujours_a_jour 8 OsAutre). lia.
Defined.

(** X14. Pointer motion matters only while the button is held: once
    [arreter_deplacement] has run, any number of [deplacer] events leave
    the whole object as it is (no pan, no redraw), whatever the
    positions, until the next [commencer_deplacement]. *)
Theorem glisser_sans_bouton
  (limite : nat) (fin : Event) (events : list Event) (self : VonKochApp) :
  glisser limite events (snd (arreter_deplacement fin self))
  = set_dragging false self
  /\ Forall (fun event =>
               deplacer limite event (set_dragging false self)
               = (Ok tt, set_dragging false self)) events.
Proof.
  split.
  - unfold glisser, arreter_deplacement. cbn [snd].
    induction events as [ | event events IH]; [reflexivity | ].
    cbn [fold_left]. exact IH.
  - apply Forall_forall. intros event _. reflexivity.
Qed.
